(** * GitLab merge requests extension: approval resolution and query building

    A shallow embedding of the GitLab module of the extension, in the version
    that has the approvals hook ([src/unnamed/part_000]; [src/src/gitlab.ts]
    is the same module without it): the URL builder [buildGitLabURL], the list
    hook [useMergeRequests] and the approvals hook [useApprovals]. Line
    numbers are those of [part_000].

    Conventions.
    - JavaScript strings are [string]; numbers that the program handles
      (identifiers, counts, page sizes) are [Z].
    - [undefined] and [null] of an optional field are [None]; the program only
      looks at them through [??], [?.], [||] and truthiness.
    - A call that may throw returns a [Completion]. *)

From Stdlib Require Import Ascii String.
From stdpp Require Import gmap strings list pretty.

Open Scope Z_scope.
Open Scope string_scope.

(** ** Completions: normal return or a thrown error *)

Inductive JSError :=
  | TypeError (msg : string)   (* thrown by the platform, e.g. [new URL] *)
  | FetchError (msg : string)  (* a rejected [fetch] or [res.json()] promise *)
  | Error (msg : string).      (* [new Error(msg)] *)

Inductive Completion (A : Type) :=
  | Return (a : A)
  | Throw (e : JSError).
Arguments Return {A} a.
Arguments Throw {A} e.

#[global] Instance Completion_ret : MRet Completion := @Return.

#[global] Instance Completion_bind : MBind Completion := λ A B k c,
  match c with
  | Return a => k a
  | Throw e => Throw e
  end.

(** [try { c } catch (_e) { return h }] *)
Definition try_catch {A} (c : Completion A) (h : A) : Completion A :=
  match c with
  | Return a => Return a
  | Throw _ => Return h
  end.

(** [await Promise.all(cs)]: rejects with the first rejection, otherwise
    resolves with all the values in order. *)
Fixpoint Promise_all {A} (cs : list (Completion A)) : Completion (list A) :=
  match cs with
  | [] => mret []
  | c :: cs' => a ← c; as' ← Promise_all cs'; mret (a :: as')
  end.

(** ** The approvals record and the approval decision (part_000, l. 177-201) *)

Record Approver := { user_id : Z; user_name : string }.

(** The decoded body of [GET .../approvals]; every field is optional. *)
Record ApprovalsJSON := {
  approved : option bool;
  approvals_left : option Z;
  approvals_required : option Z;
  approved_by : option (list Approver)
}.

(** [json.approvals_required ?? 0] *)
Definition approvalsRequired (json : ApprovalsJSON) : Z :=
  default 0 (approvals_required json).

(** [json.approvals_left ?? (approvalsRequired === 0 ? 0 : undefined)] *)
Definition approvalsLeft (json : ApprovalsJSON) : option Z :=
  match approvals_left json with
  | Some l => Some l
  | None => if decide (approvalsRequired json = 0) then Some 0 else None
  end.

(** [approved_by ?? []] *)
Definition approvers (json : ApprovalsJSON) : list Approver :=
  default [] (approved_by json).

(** [json.approved_by?.length ?? 0] *)
Definition approversCount (json : ApprovalsJSON) : Z :=
  match approved_by json with
  | Some l => Z.of_nat (length l)
  | None => 0
  end.

(** [x === 0] for an [x] that may be [undefined]. *)
Definition is_zero (x : option Z) : bool :=
  match x with
  | Some l => bool_decide (l = 0)
  | None => false
  end.

(** [x === true] for an optional boolean. *)
Definition is_true (x : option bool) : bool :=
  match x with
  | Some true => true
  | _ => false
  end.

(** The value of [isApproved] after the [if]/[else] of l. 188-196. *)
Definition isApproved_rule (json : ApprovalsJSON) : bool :=
  if bool_decide (0 < approvalsRequired json)
  then (if is_zero (approvalsLeft json) && bool_decide (0 < approversCount json)
        then true else false)
  else false.

(** The value of [isApproved] that is returned (after the fallback, l. 198). *)
Definition isApproved (json : ApprovalsJSON) : bool :=
  let isApproved := isApproved_rule json in
  if negb isApproved && is_true (approved json) && bool_decide (0 < approversCount json)
  then true
  else isApproved.

(** ** Strings: the two normalisations of [buildGitLabURL] *)

(** [path.replace(/^\//, "")]: at most one leading slash is removed. *)
Definition strip_leading_slash (path : string) : string :=
  match path with
  | String "/"%char rest => rest
  | _ => path
  end.

(** [s.endsWith("/")] *)
Fixpoint endsWith_slash (s : string) : bool :=
  match s with
  | "" => false
  | String c "" => bool_decide (c = "/"%char)
  | String _ s' => endsWith_slash s'
  end.

(** [gitlabInstance.endsWith("/") ? gitlabInstance : gitlabInstance + "/"] *)
Definition with_trailing_slash (instance : string) : string :=
  if endsWith_slash instance then instance else instance +:+ "/".

(** [s.startsWith("/")], used to state the claims. *)
Definition startsWith_slash (s : string) : bool :=
  match s with
  | String "/"%char _ => true
  | _ => false
  end.

(** ** The platform's URL objects

    A URL object keeps its query as text ([url_query], [None] for a null
    query) together with the list of its [searchParams] object; the part
    before the query is kept as serialised. *)

Record URL := {
  url_base : string;
  url_query : option string;
  url_list : list (string * string);
  url_fragment : option string
}.

Definition in_range (lo hi : N) (c : ascii) : bool :=
  ((lo <=? N_of_ascii c) && (N_of_ascii c <=? hi))%N.

Definition is_alpha (c : ascii) : bool := in_range 65 90 c || in_range 97 122 c.
Definition is_digit (c : ascii) : bool := in_range 48 57 c.
Definition is_alnum (c : ascii) : bool := is_alpha c || is_digit c.

Definition hex_digit (n : N) : ascii :=
  match n with
  | 0 => "0" | 1 => "1" | 2 => "2" | 3 => "3" | 4 => "4" | 5 => "5" | 6 => "6"
  | 7 => "7" | 8 => "8" | 9 => "9" | 10 => "A" | 11 => "B" | 12 => "C"
  | 13 => "D" | 14 => "E" | _ => "F"
  end%N%char.

(** Percent-encoding of one byte, [%XX] with upper-case digits. *)
Definition percent_encode_byte (c : ascii) : string :=
  String "%"%char (String (hex_digit (N_of_ascii c / 16))
             (String (hex_digit (N_of_ascii c mod 16)) "")).

(** Bytes left as they are by the [application/x-www-form-urlencoded]
    serialiser: ASCII letters and digits, [*], [-], [.] and [_]. *)
Definition urlencoded_safe (c : ascii) : bool :=
  is_alnum c || bool_decide (c ∈ ["*"; "-"; "."; "_"]%char).

Fixpoint urlencoded_encode (s : string) : string :=
  match s with
  | "" => ""
  | String c s' =>
      (if bool_decide (c = " "%char) then "+"
       else if urlencoded_safe c then String c ""
       else percent_encode_byte c) +:+ urlencoded_encode s'
  end.

(** The serialiser of a [URLSearchParams] list. *)
Definition urlencoded_serialize (l : list (string * string)) : string :=
  String.concat "&"
    (map (λ p, urlencoded_encode p.1 +:+ "=" +:+ urlencoded_encode p.2) l).

(** [params.set(name, value)] on the list: the first tuple named [name]
    takes the value and the others are removed; without such a tuple one is
    appended. *)
Fixpoint list_set (name value : string) (l : list (string * string))
  : list (string * string) :=
  match l with
  | [] => [(name, value)]
  | p :: l' =>
      if decide (p.1 = name)
      then (name, value) :: filter (λ q, q.1 ≠ name) l'
      else p :: list_set name value l'
  end.

(** [url.searchParams.set(name, value)]: the list is updated and the URL's
    query becomes its serialisation, or null when that is empty. *)
Definition searchParams_set (name value : string) (url : URL) : URL :=
  let l := list_set name value (url_list url) in
  let q := urlencoded_serialize l in
  {| url_base := url_base url;
     url_query := if decide (q = "") then None else Some q;
     url_list := l;
     url_fragment := url_fragment url |}.

(** [url.toString()] *)
Definition URL_toString (url : URL) : string :=
  url_base url
  +:+ match url_query url with Some q => "?" +:+ q | None => "" end
  +:+ match url_fragment url with Some f => "#" +:+ f | None => "" end.

(** The query text of a URL is the serialisation of its list of tuples, and
    it is null when there is none. *)
Definition query_synced (url : URL) : Prop :=
  url_query url
  = if decide (url_list url = []) then None
    else Some (urlencoded_serialize (url_list url)).

(** The names of the query parameters of a URL. *)
Definition query_keys (url : URL) : list string := (url_list url).*1.

(** A relative reference that is only a path: it starts with a letter or a
    digit and it is made of letters, digits, [/], [_], [-] and [.]. *)
Definition path_char (c : ascii) : bool :=
  is_alnum c || bool_decide (c ∈ ["/"; "_"; "-"; "."]%char).

Fixpoint all_chars (f : ascii → bool) (s : string) : bool :=
  match s with
  | "" => true
  | String c s' => f c && all_chars f s'
  end.

Definition plain_path (s : string) : bool :=
  match s with
  | "" => false
  | String c _ => is_alnum c && all_chars path_char s
  end.

(** [new URL(input, base)] is the platform's. [None] stands for the
    [TypeError] it throws on an input it cannot parse. *)
Class URLPlatform := URL_new : string → string → option URL.

(** The one fact used about the platform's parser: a relative reference that
    is only a path has no query, whatever the base is (the query of the base
    is dropped as soon as the reference has a path). *)
Definition URL_conforms (P : URLPlatform) : Prop :=
  ∀ input base url,
    plain_path input = true →
    URL_new input base = Some url →
    url_query url = None ∧ url_list url = [].

(** *** A reference parser

    Enough of the parser to run the program on the usual settings: the base
    has to begin with a scheme ([ALPHA *(ALPHA / DIGIT / "+" / "-" / ".") ":"],
    a base without one is rejected by every conforming parser) and the input
    has to be a plain path, which is appended to the base (the base is
    taken to end in a slash and to have no query, as in
    [https://gitlab.example.com/]). *)

Fixpoint scheme_tail (s : string) : bool :=
  match s with
  | "" => false
  | String c s' =>
      if bool_decide (c = ":"%char) then true
      else if is_alnum c || bool_decide (c ∈ ["+"; "-"; "."]%char)
           then scheme_tail s'
           else false
  end.

Definition has_scheme (s : string) : bool :=
  match s with
  | "" => false
  | String c s' => is_alpha c && scheme_tail s'
  end.

Definition URL_new_ref (input base : string) : option URL :=
  if has_scheme base && plain_path input
  then Some {| url_base := base +:+ input; url_query := None;
               url_list := []; url_fragment := None |}
  else None.

Definition URLRef : URLPlatform := URL_new_ref.

(** ** Merge requests

    Of the fields of [MergeRequest] the hooks read the three identifiers;
    [title] and [mr_state] stand for the rest of the snapshot. *)

Record MergeRequest := {
  mr_id : Z;
  mr_iid : Z;
  mr_project_id : Z;
  mr_title : string;
  mr_state : string
}.

(** ** Preferences and [buildGitLabURL] (part_000, l. 44-64) *)

Record Prefs := { gitlabInstance : string; gitlabToken : string }.

Definition with_instance (instance token : string) : Prefs :=
  {| gitlabInstance := instance; gitlabToken := token |}.

(** A value of a [Record<string, string | number | undefined | null>]. *)
Inductive ParamValue :=
  | VUndefined
  | VNull
  | VString (s : string)
  | VNumber (n : Z).

(** [value === undefined || value === null || value === ""] *)
Definition is_skipped (value : ParamValue) : bool :=
  match value with
  | VUndefined | VNull => true
  | VString s => bool_decide (s = "")
  | VNumber _ => false
  end.

(** [String(value)] *)
Definition String_of (value : ParamValue) : string :=
  match value with
  | VUndefined => "undefined"
  | VNull => "null"
  | VString s => s
  | VNumber n => pretty n
  end.

(** The parameter object as [Object.entries] lists it. *)
Definition SearchParams := list (string * ParamValue).

(** One turn of the loop over the entries. *)
Definition set_entry (url : URL) (entry : string * ParamValue) : URL :=
  if is_skipped entry.2 then url
  else searchParams_set entry.1 (String_of entry.2) url.

Section Builder.
Context {platform : URLPlatform}.

(** The URL object of [buildGitLabURL] right before [url.toString()]. *)
Definition buildGitLabURL_object (prefs : Prefs) (path : string)
    (searchParams : option SearchParams) : Completion URL :=
  match URL_new (strip_leading_slash path)
                (with_trailing_slash (gitlabInstance prefs)) with
  | None => Throw (TypeError "Invalid URL")
  | Some url =>
      Return (match searchParams with
              | Some entries => foldl set_entry url entries
              | None => url
              end)
  end.

Definition buildGitLabURL (prefs : Prefs) (path : string)
    (searchParams : option SearchParams) : Completion string :=
  url ← buildGitLabURL_object prefs path searchParams;
  mret (URL_toString url).

(** ** [useMergeRequests] (part_000, l. 79-125) *)

Record UseMergeRequestsParams := {
  search : option string;
  scope : option string;
  state : option string;
  perPage : option Z
}.

(** The call [useFetch(url, { keepPreviousData, execute, headers, onError })];
    the request goes out when [execute] is true. *)
Record UseFetchCall := {
  fetch_url : string;
  keepPreviousData : bool;
  execute : bool;
  fetch_headers : list (string * string)
}.

(** What the hook gives back: the object built at l. 105-110 (its
    [revalidate] does nothing), or what [useFetch] returns for the call made
    at l. 113. *)
Inductive MergeRequestsResult :=
  | Immediate (data : option (list MergeRequest)) (isLoading : bool)
      (error : option JSError)
  | UseFetch (call : UseFetchCall).

(** The destructuring defaults of l. 87. *)
Definition search_of (params : UseMergeRequestsParams) : string :=
  default "" (search params).
Definition scope_of (params : UseMergeRequestsParams) : string :=
  default "assigned_to_me" (scope params).
Definition state_of (params : UseMergeRequestsParams) : string :=
  default "opened" (state params).
Definition perPage_of (params : UseMergeRequestsParams) : Z :=
  default 20 (perPage params).

(** [state === "all" ? undefined : state] *)
Definition effectiveState (params : UseMergeRequestsParams) : ParamValue :=
  if decide (state_of params = "all") then VUndefined
  else VString (state_of params).

(** [scope === "all" && !search] *)
Definition shouldDefer (params : UseMergeRequestsParams) : bool :=
  bool_decide (scope_of params = "all") && bool_decide (search_of params = "").

(** The object literal of l. 94-102. *)
Definition listParams (params : UseMergeRequestsParams) : SearchParams :=
  [ ("search", if decide (search_of params = "") then VUndefined
               else VString (search_of params));
    ("in", if decide (search_of params = "") then VUndefined
           else VString "title");
    ("scope", VString (scope_of params));
    ("state", effectiveState params);
    ("order_by", VString "updated_at");
    ("sort", VString "desc");
    ("per_page", VNumber (perPage_of params)) ].

(** The URL object behind the [url] of l. 94. *)
Definition listURL (prefs : Prefs) (params : UseMergeRequestsParams)
  : Completion URL :=
  buildGitLabURL_object prefs "/api/v4/merge_requests" (Some (listParams params)).

Definition useMergeRequests (prefs : Prefs) (params : UseMergeRequestsParams)
  : Completion MergeRequestsResult :=
  url ← buildGitLabURL prefs "/api/v4/merge_requests" (Some (listParams params));
  if decide (gitlabToken prefs = "")
  then mret (Immediate None false
               (Some (Error "GitLab token not set in preferences")))
  else mret (UseFetch {| fetch_url := url;
                         keepPreviousData := true;
                         execute := negb (shouldDefer params);
                         fetch_headers := [("PRIVATE-TOKEN", gitlabToken prefs)] |}).

(** The URL of the list request can be built: the constructor accepts the
    instance, with its trailing slash, as a base. *)
Definition instance_accepted {platform : URLPlatform} (prefs : Prefs) : Prop :=
  is_Some (URL_new "api/v4/merge_requests"
             (with_trailing_slash (gitlabInstance prefs))).

(** Whether a run of the hook sends the list request. *)
Definition dispatches (r : Completion MergeRequestsResult) : bool :=
  match r with
  | Return (UseFetch call) => execute call
  | _ => false
  end.
End Builder.

(** ** [useApprovals] (part_000, l. 156-221) *)

(** What [fetch(url, { headers, signal })] and then [res.json()] give for one
    request. *)
Inductive FetchReply :=
  | Rejected                       (* the [fetch] promise rejects: transport, abort *)
  | Response (ok : bool) (body : option ApprovalsJSON).
                                   (* [res.ok]; [None]: [res.json()] rejects *)

(** The server and the transport, as seen from the hook: the reply to a GET
    of a URL with a [PRIVATE-TOKEN]. *)
Class Network := fetch : string → string → FetchReply.

(** The lookups that the claims call failed: a transport error, a status
    outside 2xx, a body that does not decode. *)
Definition reply_fails (r : FetchReply) : bool :=
  match r with
  | Rejected => true
  | Response false _ => true
  | Response true None => true
  | Response true (Some _) => false
  end.

(** [`/api/v4/projects/${mr.project_id}/merge_requests/${mr.iid}/approvals`] *)
Definition approvalsPath (mr : MergeRequest) : string :=
  "/api/v4/projects/" +:+ pretty (mr_project_id mr)
  +:+ "/merge_requests/" +:+ pretty (mr_iid mr) +:+ "/approvals".

(** An element of [entries]: [undefined] or the pair [[mr.id, isApproved]]. *)
Definition Entry := option (Z * bool).

(** [for (const e of entries) if (e) map[e[0]] = e[1]], from an empty [map]. *)
Definition add_entry (map : gmap Z bool) (e : Entry) : gmap Z bool :=
  match e with
  | Some (k, v) => <[k := v]> map
  | None => map
  end.

Definition entries_map (entries : list Entry) : gmap Z bool :=
  foldl add_entry ∅ entries.

(** [mrs.map((m) => m.id).join(",")], the second dependency of the effect. *)
Definition ids_key (mrs : list MergeRequest) : string :=
  String.concat "," (map (λ m, pretty (mr_id m)) mrs).

(** What follows the first element in [l.join(",")]. *)
Definition join_tail (l : list string) : string :=
  match l with
  | [] => ""
  | _ => "," +:+ String.concat "," l
  end.

Definition not_comma (c : ascii) : bool := negb (bool_decide (c = ","%char)).

(** [mrs.slice(0, 25)] *)
Definition subset_of (mrs : list MergeRequest) : list MergeRequest := take 25 mrs.

Section Approvals.
Context {platform : URLPlatform} {network : Network}.

(** The body of the [try] block of the callback given to [subset.map]. *)
Definition lookup_try (prefs : Prefs) (mr : MergeRequest) : Completion Entry :=
  url ← buildGitLabURL prefs (approvalsPath mr) None;
  match fetch url (gitlabToken prefs) with
  | Rejected => Throw (FetchError "request failed")
  | Response ok body =>
      if negb ok then mret None
      else match body with
           | None => Throw (FetchError "invalid json")
           | Some json => mret (Some (mr_id mr, isApproved json))
           end
  end.

(** The callback: [try { ... } catch (_e) { return undefined }]. *)
Definition lookup (prefs : Prefs) (mr : MergeRequest) : Completion Entry :=
  try_catch (lookup_try prefs mr) None.

(** The value that the promise of the callback resolves with. *)
Definition lookup_entry (prefs : Prefs) (mr : MergeRequest) : Entry :=
  match lookup_try prefs mr with
  | Return e => e
  | Throw _ => None
  end.

(** [await Promise.all(subset.map(async (mr) => ...))] *)
Definition lookup_all (prefs : Prefs) (subset : list MergeRequest)
  : Completion (list Entry) :=
  Promise_all (map (lookup prefs) subset).

(** An item whose lookup fails: its URL cannot be built or its reply fails. *)
Definition item_fails (prefs : Prefs) (mr : MergeRequest) : bool :=
  match buildGitLabURL prefs (approvalsPath mr) None with
  | Return url => reply_fails (fetch url (gitlabToken prefs))
  | Throw _ => true
  end.

(** *** The hook as a transition system

    One run of the effect is a [Batch]: the closure holding [subset] and the
    flag [cancelled]. The hook's state is the [approvedMap] of [useState], the
    dependencies of the last run of the effect, every batch started so far
    (a batch is named by its position) and the batch that the current cleanup
    function closes over, if the last run returned one. *)

Record Batch := {
  batch_prefs : Prefs;
  batch_subset : list MergeRequest;
  cancelled : bool;
  settled : bool
}.

Record HookState := {
  approvedMap : gmap Z bool;
  last_deps : option (string * string);
  batches : list Batch;
  cleanup : option nat
}.

Definition initial : HookState :=
  {| approvedMap := ∅; last_deps := None; batches := []; cleanup := None |}.

Inductive Event :=
  | Render (prefs : Prefs) (mrs : list MergeRequest)
      (* the component renders and React runs the effects of the render *)
  | Settle (b : nat)   (* the [await Promise.all] of batch [b] resumes *)
  | Unmount.           (* the component goes away: the last cleanup runs *)

(** [[gitlabToken, mrs.map((m) => m.id).join(",")]] *)
Definition deps_of (prefs : Prefs) (mrs : list MergeRequest) : string * string :=
  (gitlabToken prefs, ids_key mrs).

Definition deps_changed (st : HookState) (prefs : Prefs) (mrs : list MergeRequest)
  : bool :=
  bool_decide (last_deps st ≠ Some (deps_of prefs mrs)).

Definition cancel (b : Batch) : Batch :=
  {| batch_prefs := batch_prefs b; batch_subset := batch_subset b;
     cancelled := true; settled := settled b |}.

Definition settle_batch (b : Batch) : Batch :=
  {| batch_prefs := batch_prefs b; batch_subset := batch_subset b;
     cancelled := cancelled b; settled := true |}.

(** The cleanup function of the previous run: [cancelled = true;
    controller.abort()]. *)
Definition run_cleanup (st : HookState) : list Batch :=
  match cleanup st with
  | Some b => alter cancel b (batches st)
  | None => batches st
  end.

(** A render: when a dependency changed (or on mount) the previous cleanup
    runs and then the effect; the effect starts a batch unless the token or the
    list is empty. *)
Definition render (prefs : Prefs) (mrs : list MergeRequest) (st : HookState)
  : HookState :=
  if deps_changed st prefs mrs then
    let bs := run_cleanup st in
    if bool_decide (gitlabToken prefs = "") || bool_decide (mrs = []) then
      {| approvedMap := approvedMap st; last_deps := Some (deps_of prefs mrs);
         batches := bs; cleanup := None |}
    else
      {| approvedMap := approvedMap st; last_deps := Some (deps_of prefs mrs);
         batches := bs ++ [ {| batch_prefs := prefs; batch_subset := subset_of mrs;
                               cancelled := false; settled := false |} ];
         cleanup := Some (length bs) |}
  else st.

(** The map that a batch merges in: [{ ...prev, ...map }]. *)
Definition merge_entries (prev : gmap Z bool) (entries : list Entry)
  : gmap Z bool :=
  entries_map entries ∪ prev.

(** What follows [await Promise.all(...)] in batch [b]. *)
Definition settle (b : nat) (st : HookState) : HookState :=
  match batches st !! b with
  | Some batch =>
      if settled batch then st
      else
        let bs := alter settle_batch b (batches st) in
        match lookup_all (batch_prefs batch) (batch_subset batch) with
        | Return entries =>
            if cancelled batch
            then {| approvedMap := approvedMap st; last_deps := last_deps st;
                    batches := bs; cleanup := cleanup st |}
            else {| approvedMap := merge_entries (approvedMap st) entries;
                    last_deps := last_deps st; batches := bs;
                    cleanup := cleanup st |}
        | Throw _ =>
            {| approvedMap := approvedMap st; last_deps := last_deps st;
               batches := bs; cleanup := cleanup st |}
        end
  | None => st
  end.

(** After an unmount the state of [useState] is gone; the batches in flight
    still settle. *)
Definition unmount (st : HookState) : HookState :=
  {| approvedMap := ∅; last_deps := None; batches := run_cleanup st;
     cleanup := None |}.

Definition step (st : HookState) (ev : Event) : HookState :=
  match ev with
  | Render prefs mrs => render prefs mrs st
  | Settle b => settle b st
  | Unmount => unmount st
  end.

Definition run (st : HookState) (evs : list Event) : HookState :=
  foldl step st evs.

(** In a state that the hook can reach, the batch of the current cleanup is
    the last one started, and every other batch is cancelled. *)
Definition hook_invariant (st : HookState) : Prop :=
  (∀ j, cleanup st = Some j → S j = length (batches st))
  ∧ (∀ j batch, batches st !! j = Some batch → cancelled batch = false →
       cleanup st = Some j).

(** Batch [b] has been cancelled. *)
Definition is_cancelled (b : nat) (st : HookState) : Prop :=
  ∃ batch, batches st !! b = Some batch ∧ cancelled batch = true.

(** [useApprovals(mrs)] returns the [approvedMap] of the render; the effect
    runs afterwards. *)
Definition useApprovals (prefs : Prefs) (mrs : list MergeRequest) (st : HookState)
  : gmap Z bool * HookState :=
  (approvedMap st, render prefs mrs st).
End Approvals.

(** ** The kept entries of a parameter object *)

(** The tuples that the loop of [buildGitLabURL] sets, in the order of the
    entries. *)
Definition kept_entries (entries : SearchParams) : list (string * string) :=
  omap (λ e, if is_skipped e.2 then None else Some (e.1, String_of e.2)) entries.

(** The number of occurrences of a character in a text. *)
Fixpoint count_char (c : ascii) (s : string) : nat :=
  match s with
  | "" => 0%nat
  | String d s' => ((if decide (d = c) then 1 else 0) + count_char c s')%nat
  end.

(** The characters that the serialiser writes for a name or a value. *)
Definition encoded_char (c : ascii) : bool :=
  urlencoded_safe c || bool_decide (c ∈ ["+"; "%"]%char).

Definition digit_or_dash (c : ascii) : bool :=
  is_digit c || bool_decide (c = "-"%char).

(** ** The rows of the list (part_000, l. 127-154 and 223-234;
       search-merge-requests.tsx) *)

Record Reviewer := {
  reviewer_id : Z;
  reviewer_name : string;
  reviewer_username : string;
  avatar_url : option string
}.

Record Pipeline := {
  pipeline_id : Z;
  pipeline_status : string;
  pipeline_web_url : option string
}.

(** A merge request with the fields that the rows read besides the
    identifiers, the title and the state. *)
Record MergeRequestRow := {
  row_mr : MergeRequest;
  merged_at : option string;
  updated_at : string;
  author_name : string;
  reviewers : option (list Reviewer);
  head_pipeline : option Pipeline;
  row_approved : option bool
}.

(** Truthiness of a [string | null | undefined]: neither absent nor empty. *)
Definition truthy (s : option string) : bool :=
  match s with
  | Some s => negb (bool_decide (s = ""))
  | None => false
  end.

(** [pipelineStatusToIcon] (part_000, l. 223-234) *)
Definition pipelineStatusToIcon (status : string) : option string :=
  if decide (status = "running") then Some "gitlab-running.png"
  else if decide (status = "pending") then Some "gitlab-pending.png"
  else if decide (status = "success") then Some "gitlab-success.png"
  else None.

(** An icon is an image (a file name or an address) or a member of [Icon]. *)
Inductive IconRef :=
  | IconImage (src : string)
  | IconPerson.

Inductive Color := Green.

Inductive TagValue :=
  | TagText (text : string)                       (* [tag: "..."] *)
  | TagColored (value : string) (color : Color).  (* [tag: { value, color }] *)

(** An accessory object: the keys that it does not have are [None]. *)
Record Accessory := {
  acc_icon : option IconRef;
  acc_tag : option TagValue;
  acc_tooltip : option string;
  acc_date : option string
}.

(** The accessory pushed at l. 132. *)
Definition pipeline_accessory (mr : MergeRequestRow) : list Accessory :=
  match head_pipeline mr with
  | Some p =>
      if truthy (Some (pipeline_status p)) then
        match pipelineStatusToIcon (pipeline_status p) with
        | Some icon =>
            [ {| acc_icon := Some (IconImage icon); acc_tag := None;
                 acc_tooltip := Some ("Pipeline: " +:+ pipeline_status p);
                 acc_date := None |} ]
        | None => []
        end
      else []
  | None => []
  end.

Definition approved_tag : Accessory :=
  {| acc_icon := None; acc_tag := Some (TagColored "APPROVED" Green);
     acc_tooltip := None; acc_date := None |}.

(** The accessory pushed at l. 136. *)
Definition approved_accessory (mr : MergeRequestRow) : list Accessory :=
  if is_true (row_approved mr) then [approved_tag] else [].

(** The accessory pushed at l. 140-144. *)
Definition reviewers_accessory (mr : MergeRequestRow) : list Accessory :=
  match reviewers mr with
  | Some (first :: others) =>
      [ {| acc_icon := Some (if truthy (avatar_url first)
                             then IconImage (default "" (avatar_url first))
                             else IconPerson);
           acc_tag := Some (TagText "Reviews");
           acc_tooltip :=
             Some ("Reviewer" +:+ (if decide (others = []) then "" else "s")
                   +:+ ": "
                   +:+ String.concat ", " (reviewer_name <$> first :: others));
           acc_date := None |} ]
  | _ => []
  end.

Section Rows.
(** [new Date(text).toLocaleString()] is the platform's, and depends on the
    locale. *)
Variable toLocaleString : string → string.

(** The two accessories that every row ends with (l. 146-152). *)
Definition state_and_date (mr : MergeRequestRow) : list Accessory :=
  [ {| acc_icon := None; acc_tag := Some (TagText (mr_state (row_mr mr)));
       acc_tooltip := None; acc_date := None |};
    {| acc_icon := None; acc_tag := None;
       acc_tooltip := Some ("Updated at " +:+ toLocaleString (updated_at mr));
       acc_date := Some (updated_at mr) |} ].

(** [mergeRequestAccessories] of part_000 (l. 127-154). *)
Definition mergeRequestAccessories (mr : MergeRequestRow) : list Accessory :=
  pipeline_accessory mr ++ approved_accessory mr ++ reviewers_accessory mr
  ++ state_and_date mr.

(** [mergeRequestAccessories] of gitlab.ts (l. 120-138), which knows neither
    pipelines nor approvals. *)
Definition mergeRequestAccessories_gitlab_ts (mr : MergeRequestRow)
  : list Accessory :=
  reviewers_accessory mr ++ state_and_date mr.


End Rows.

(** [stateIcon] (search-merge-requests.tsx, l. 5-9 and l. 78-82) *)
Definition stateIcon (mr : MergeRequestRow) : string :=
  if truthy (merged_at mr) || bool_decide (mr_state (row_mr mr) = "merged")
  then "pr-merged.png"
  else if decide (mr_state (row_mr mr) = "closed") then "pr-closed.png"
  else "pr-open.png".

(** *** The component [SearchMergeRequests] *)

(** The three [useState] cells of the component. *)
Record SearchState := {
  ui_search : string;
  ui_scope : string;
  ui_state : string
}.

(** [useMergeRequests({ search, scope, state })] *)
Definition ui_params (ui : SearchState) : UseMergeRequestsParams :=
  {| search := Some (ui_search ui); scope := Some (ui_scope ui);
     state := Some (ui_state ui); perPage := None |}.

(** [scope === "all" && !search]: whether the [List.EmptyView] is rendered. *)
Definition emptyView (ui : SearchState) : bool :=
  bool_decide (ui_scope ui = "all") && bool_decide (ui_search ui = "").

(** An action of the section [Change Scope]: its title is the label followed
    by [" (Current)"] when the test of the template holds, and [onAction] calls
    [changeScope(target)]. *)
Record ScopeAction := {
  action_label : string;
  action_current : bool;
  action_target : string
}.

Definition action_title (a : ScopeAction) : string :=
  action_label a +:+ (if action_current a then " (Current)" else "").

(** The four actions of [MRActionPanel]
    (search-merge-requests.tsx, l. 148-173). *)
Definition scopeActions (scope : string) : list ScopeAction :=
  [ {| action_label := "Scope: Assigned To Me";
       action_current := bool_decide (scope = "assigned_to_me");
       action_target := "assigned_to_me" |};
    {| action_label := "Scope: Created By Me";
       action_current := bool_decide (scope = "created_by_me");
       action_target := "created_by_me" |};
    {| action_label := "Scope: Reviewer";
       action_current := bool_decide (scope = "reviewer");
       action_target := "reviews_for_me" |};
    {| action_label := "Scope: All";
       action_current := bool_decide (scope = "all");
       action_target := "all" |} ].

(** [changeScope(s)]: [setScope(s); revalidate()]. *)
Definition changeScope (s : string) (ui : SearchState) : SearchState :=
  {| ui_search := ui_search ui; ui_scope := s; ui_state := ui_state ui |}.


(** In a history of the approvals hook, every render has no token or no
    merge request. *)
Definition idle_event (ev : Event) : Prop :=
  match ev with
  | Render prefs mrs => gitlabToken prefs = "" ∨ mrs = []
  | _ => True
  end.

(** ** Settings and queries used in the examples *)

Definition example_prefs : Prefs :=
  {| gitlabInstance := "https://gitlab.example.com"; gitlabToken := "glpat-1" |}.

Definition example_prefs_slash : Prefs :=
  {| gitlabInstance := "https://gitlab.example.com/"; gitlabToken := "glpat-1" |}.

Definition no_token_prefs : Prefs :=
  {| gitlabInstance := "https://gitlab.example.com"; gitlabToken := "" |}.

Definition no_scheme_prefs : Prefs :=
  {| gitlabInstance := "gitlab.example.com"; gitlabToken := "" |}.

Definition params_default : UseMergeRequestsParams :=
  {| search := None; scope := None; state := None; perPage := None |}.

Definition params_all_empty : UseMergeRequestsParams :=
  {| search := Some ""; scope := Some "all"; state := None; perPage := None |}.

Definition params_state_all : UseMergeRequestsParams :=
  {| search := None; scope := Some "created_by_me"; state := Some "all";
     perPage := None |}.

Definition params_assigned : UseMergeRequestsParams :=
  {| search := Some "fix"; scope := Some "assigned_to_me"; state := None;
     perPage := None |}.

(** ** Servers and lists used in the examples *)

Definition approved_json : ApprovalsJSON :=
  {| approved := Some true; approvals_left := Some 0;
     approvals_required := Some 1;
     approved_by := Some [ {| user_id := 7; user_name := "ana" |} ] |}.

(** The rule is relaxed: nothing is left to approve and nobody approved. *)
Definition relaxed_json : ApprovalsJSON :=
  {| approved := Some true; approvals_left := Some 0;
     approvals_required := Some 1; approved_by := Some [] |}.

(** No approval rule, and the server says approved. *)
Definition unrestricted_json : ApprovalsJSON :=
  {| approved := Some true; approvals_left := None;
     approvals_required := None; approved_by := None |}.

(** One approval of two is left, and the server says approved. *)
Definition pending_json : ApprovalsJSON :=
  {| approved := Some true; approvals_left := Some 1;
     approvals_required := Some 2;
     approved_by := Some [ {| user_id := 7; user_name := "ana" |} ] |}.

(** Every merge request is approved. *)
Definition net_approved : Network :=
  λ url token, Response true (Some approved_json).

(** The same, except that the approvals of merge request 1 of project 1
    answer 500. *)
Definition net_partial : Network :=
  λ url token,
    if decide (url = "https://gitlab.example.com/api/v4/projects/1/merge_requests/1/approvals")
    then Response false None
    else Response true (Some approved_json).

Definition mk_mr (n : Z) : MergeRequest :=
  {| mr_id := 100 + n; mr_iid := n; mr_project_id := 1;
     mr_title := "merge request"; mr_state := "opened" |}.

(** Thirty merge requests, with the identifiers 101 to 130. *)
Definition thirty : list MergeRequest := mk_mr <$> seqZ 1 30.

(** * Properties *)

(** ** The approval decision *)

Lemma approversCount_pos (json : ApprovalsJSON) :
  bool_decide (0 < approversCount json) = bool_decide (approvers json ≠ []).
Proof.
  unfold approversCount, approvers.
  destruct (approved_by json) as [[|a l]|]; cbn [default];
    apply bool_decide_ext; rewrite ?length_cons; split; (done || lia).
Qed.

Lemma isApproved_needs_approver (json : ApprovalsJSON) :
  isApproved json = true → approvers json ≠ [].
Proof.
  unfold isApproved, isApproved_rule.
  rewrite approversCount_pos.
  destruct (bool_decide (approvers json ≠ [])) eqn:E.
  - by apply bool_decide_eq_true in E.
  - rewrite !andb_false_r. by destruct (bool_decide (0 < approvalsRequired json)).
Qed.

(** C1. With [approvals_required > 0] and [approvals_left == 0], the resolved
    boolean is true exactly when [approved_by] is not empty; with no approver
    it is false whatever the server says in [approved]. *)
Theorem C1_required_left_zero (json : ApprovalsJSON) (r : Z) :
  approvals_required json = Some r →
  0 < r →
  approvals_left json = Some 0 →
  (isApproved json = true ↔ approvers json ≠ [])
  ∧ (approvers json = [] → isApproved json = false).
Proof.
  intros Hr Hpos Hl.
  assert (Hiff : isApproved json = true ↔ approvers json ≠ []).
  { split; [apply isApproved_needs_approver|].
    intros Hne. unfold isApproved, isApproved_rule, approvalsRequired, approvalsLeft.
    rewrite Hr, Hl, approversCount_pos. simpl.
    rewrite (bool_decide_eq_true_2 _ Hpos), (bool_decide_eq_true_2 _ Hne).
    done. }
  split; [done|].
  intros He. apply not_true_is_false. intros E.
  by apply Hiff in E.
Qed.

Lemma C1_required_left_zero_witness :
  (isApproved relaxed_json = true ↔ approvers relaxed_json ≠ [])
  ∧ (approvers relaxed_json = [] → isApproved relaxed_json = false).
Proof.
  apply (C1_required_left_zero relaxed_json 1); [reflexivity|lia|reflexivity].
Defined.

Example relaxed_json_not_approved : isApproved relaxed_json = false.
Proof. reflexivity. Qed.

(** C2. With [approvals_required] zero or absent the rule of l. 188-196 says
    no; a server [approved == true] and no approver give false; and the result
    is never true without a recorded approver. *)
Theorem C2_no_rule_no_approver (json : ApprovalsJSON) :
  approvals_required json = Some 0 ∨ approvals_required json = None →
  isApproved_rule json = false
  ∧ (approved json = Some true → approvers json = [] → isApproved json = false)
  ∧ (isApproved json = true → approvers json ≠ []).
Proof.
  intros Hreq. split; [|split; [|apply isApproved_needs_approver]].
  - unfold isApproved_rule, approvalsRequired. by destruct Hreq as [-> | ->].
  - intros _ He. apply not_true_is_false. intros E.
    by apply isApproved_needs_approver in E.
Qed.

Lemma C2_no_rule_no_approver_witness :
  isApproved_rule unrestricted_json = false
  ∧ (approved unrestricted_json = Some true → approvers unrestricted_json = [] →
     isApproved unrestricted_json = false)
  ∧ (isApproved unrestricted_json = true → approvers unrestricted_json ≠ []).
Proof. apply (C2_no_rule_no_approver unrestricted_json). by right. Defined.

Example unrestricted_json_not_approved : isApproved unrestricted_json = false.
Proof. reflexivity. Qed.

(** C3. The fallback: when the rule of l. 188-196 says no, the server says
    [approved == true] and there is an approver, the result is true; so it is
    for [approvals_required == 2], [approvals_left] absent, [approved == true]
    and one approver. *)
Theorem C3_fallback (json : ApprovalsJSON) :
  isApproved_rule json = false →
  approved json = Some true →
  approvers json ≠ [] →
  isApproved json = true
  ∧ ∀ a, isApproved {| approved := Some true; approvals_left := None;
                       approvals_required := Some 2;
                       approved_by := Some [a] |} = true.
Proof.
  intros Hrule Happ Hne. split; [|done].
  unfold isApproved. rewrite Hrule, Happ, approversCount_pos.
  by rewrite (bool_decide_eq_true_2 _ Hne).
Qed.

Lemma C3_fallback_witness :
  isApproved pending_json = true
  ∧ ∀ a, isApproved {| approved := Some true; approvals_left := None;
                       approvals_required := Some 2;
                       approved_by := Some [a] |} = true.
Proof. apply (C3_fallback pending_json); [reflexivity|reflexivity|done]. Defined.

(** ** URL building *)

Lemma endsWith_slash_app (s : string) : endsWith_slash (s +:+ "/") = true.
Proof.
  induction s as [|c s IH]; [done|].
  change (String c s +:+ "/") with (String c (s +:+ "/")).
  destruct s as [|c' s]; [done|]. exact IH.
Qed.

Lemma with_trailing_slash_app (s : string) :
  endsWith_slash s = false →
  with_trailing_slash (s +:+ "/") = with_trailing_slash s.
Proof.
  intros Hs. unfold with_trailing_slash. by rewrite endsWith_slash_app, Hs.
Qed.

Lemma strip_leading_slash_cons (path : string) :
  strip_leading_slash ("/" +:+ path) = path.
Proof. done. Qed.

Lemma strip_leading_slash_id (path : string) :
  startsWith_slash path = false → strip_leading_slash path = path.
Proof.
  destruct path as [|c s]; [done|]. unfold startsWith_slash, strip_leading_slash.
  destruct (decide (c = "/"%char)) as [->|Hc]; [done|].
  intros _. destruct c as [[] [] [] [] [] [] [] []]; done.
Qed.

(** C10. The URL that [buildGitLabURL] returns is the same whether the
    instance is written with or without its trailing slash and whether the
    path is written with or without its leading slash. *)
Theorem C10_normalisation {platform : URLPlatform}
    (instance token path : string) (searchParams : option SearchParams) :
  endsWith_slash instance = false →
  startsWith_slash path = false →
  buildGitLabURL (with_instance (instance +:+ "/") token) path searchParams
  = buildGitLabURL (with_instance instance token) path searchParams
  ∧ buildGitLabURL (with_instance instance token) ("/" +:+ path) searchParams
    = buildGitLabURL (with_instance instance token) path searchParams
  ∧ buildGitLabURL (with_instance (instance +:+ "/") token) ("/" +:+ path)
      searchParams
    = buildGitLabURL (with_instance instance token) path searchParams.
Proof.
  intros Hi Hp.
  unfold buildGitLabURL, buildGitLabURL_object, with_instance.
  cbn [gitlabInstance].
  by rewrite (with_trailing_slash_app _ Hi), strip_leading_slash_cons,
    (strip_leading_slash_id _ Hp).
Qed.

Lemma C10_normalisation_witness :
  buildGitLabURL (platform := URLRef) example_prefs_slash "api/v4/merge_requests"
    (Some (listParams params_default))
  = buildGitLabURL (platform := URLRef) example_prefs "api/v4/merge_requests"
      (Some (listParams params_default))
  ∧ buildGitLabURL (platform := URLRef) example_prefs "/api/v4/merge_requests"
      (Some (listParams params_default))
    = buildGitLabURL (platform := URLRef) example_prefs "api/v4/merge_requests"
        (Some (listParams params_default))
  ∧ buildGitLabURL (platform := URLRef) example_prefs_slash "/api/v4/merge_requests"
      (Some (listParams params_default))
    = buildGitLabURL (platform := URLRef) example_prefs "api/v4/merge_requests"
        (Some (listParams params_default)).
Proof.
  apply (C10_normalisation (platform := URLRef)
           "https://gitlab.example.com" "glpat-1" "api/v4/merge_requests");
    reflexivity.
Defined.

Example buildGitLabURL_example :
  buildGitLabURL (platform := URLRef)
    example_prefs "/api/v4/merge_requests"
    (Some [("search", VString "fix me"); ("state", VUndefined);
           ("per_page", VNumber 20)])
  = Return "https://gitlab.example.com/api/v4/merge_requests?search=fix+me&per_page=20".
Proof. reflexivity. Qed.

(** *** The query of the built URL *)

Lemma list_set_elem (name value : string) (l : list (string * string)) p :
  p ∈ list_set name value l → p = (name, value) ∨ p ∈ l.
Proof.
  induction l as [|q l IH]; simpl.
  - rewrite list_elem_of_singleton. auto.
  - destruct (decide (q.1 = name)) as [Hq|Hq].
    + rewrite !elem_of_cons, list_elem_of_filter. intros [?|[_ ?]]; auto.
    + rewrite !elem_of_cons. intros [?|[?|?]%IH]; auto.
Qed.

Lemma pretty_N_go_length (x : N) (s : string) :
  (String.length s ≤ String.length (pretty_N_go x s))%nat.
Proof.
  revert s. induction (N.lt_wf_0 x) as [x _ IH]; intros s.
  destruct (decide (x = 0)%N) as [->|Hx]; [by rewrite pretty_N_go_0|].
  rewrite pretty_N_go_step by lia.
  etrans; [|apply IH; apply N.div_lt; lia]. simpl. lia.
Qed.

Lemma pretty_Z_nonempty (n : Z) : pretty n ≠ "".
Proof.
  assert (Hpos : ∀ p : positive, pretty p ≠ "").
  { intros p. unfold pretty, pretty_positive, pretty, pretty_N.
    rewrite decide_False by done. rewrite pretty_N_go_step by lia.
    intros E. pose proof (pretty_N_go_length (N.pos p `div` 10)
      (String (pretty_N_char (N.pos p `mod` 10)) "")) as Hlen.
    rewrite E in Hlen. simpl in Hlen. lia. }
  destruct n as [|p|p]; [done|apply Hpos|done].
Qed.

Lemma String_of_nonempty (value : ParamValue) :
  is_skipped value = false → String_of value ≠ "".
Proof.
  destruct value as [| |s|n]; simpl; [done|done| |].
  - intros H. by apply bool_decide_eq_false in H.
  - intros _. apply pretty_Z_nonempty.
Qed.

(** Every tuple of the URL after the loop was there before it or was set by
    an entry that the loop did not skip. *)
Lemma foldl_set_entry_elem (entries : SearchParams) (url : URL) p :
  p ∈ url_list (foldl set_entry url entries) →
  p ∈ url_list url
  ∨ ∃ value, (p.1, value) ∈ entries ∧ is_skipped value = false
             ∧ p.2 = String_of value.
Proof.
  revert url. induction entries as [|[k v] entries IH]; intros url; simpl.
  - auto.
  - intros [Hin|(value & Hin & Hs & Hv)]%IH.
    + unfold set_entry in Hin. simpl in Hin.
      destruct (is_skipped v) eqn:Hsk; [by left|].
      apply list_set_elem in Hin as [->|Hin]; [|by left].
      right. exists v. simpl. rewrite elem_of_cons. auto.
    + right. exists value. rewrite elem_of_cons. auto.
Qed.

Lemma append_nonempty (x y : string) : x ≠ "" → x +:+ y ≠ "".
Proof. by destruct x. Qed.

Lemma urlencoded_serialize_nonempty (l : list (string * string)) :
  l ≠ [] → urlencoded_serialize l ≠ "".
Proof.
  destruct l as [|p l]; [done|]. intros _. unfold urlencoded_serialize.
  rewrite fmap_cons.
  assert (Hp : urlencoded_encode p.1 +:+ "=" +:+ urlencoded_encode p.2 ≠ "").
  { by destruct (urlencoded_encode p.1). }
  destruct (_ <$> l); [done|]. by apply append_nonempty.
Qed.

Lemma list_set_nonempty (name value : string) (l : list (string * string)) :
  list_set name value l ≠ [].
Proof. destruct l as [|p l]; [done|]. simpl. by destruct (decide (p.1 = name)). Qed.

Lemma searchParams_set_synced (name value : string) (url : URL) :
  query_synced (searchParams_set name value url).
Proof.
  unfold query_synced, searchParams_set. simpl.
  rewrite (decide_False (P := list_set _ _ _ = [])) by apply list_set_nonempty.
  rewrite decide_False; [done|].
  apply urlencoded_serialize_nonempty, list_set_nonempty.
Qed.

Lemma foldl_set_entry_synced (entries : SearchParams) (url : URL) :
  query_synced url → query_synced (foldl set_entry url entries).
Proof.
  revert url. induction entries as [|e entries IH]; intros url Hs; [done|].
  simpl. apply IH. unfold set_entry.
  destruct (is_skipped e.2); [done|apply searchParams_set_synced].
Qed.

Lemma buildGitLabURL_object_plain {platform : URLPlatform}
    (prefs : Prefs) (path : string) (entries : SearchParams) (url : URL) p :
  URL_conforms platform →
  plain_path (strip_leading_slash path) = true →
  buildGitLabURL_object prefs path (Some entries) = Return url →
  p ∈ url_list url →
  ∃ value, (p.1, value) ∈ entries ∧ is_skipped value = false
           ∧ p.2 = String_of value.
Proof.
  intros Hconf Hplain. unfold buildGitLabURL_object.
  destruct (URL_new _ _) as [url0|] eqn:Hnew; [|done].
  intros [= <-] Hin.
  destruct (Hconf _ _ _ Hplain Hnew) as [_ Hl].
  apply foldl_set_entry_elem in Hin as [Hin|Hin]; [|done].
  rewrite Hl in Hin. by apply elem_of_nil in Hin.
Qed.

(** C6. The list query with [state == "all"] has no [state] parameter; and a
    parameter whose value is missing, undefined, null or the empty string
    gives no key in the query of the built URL, so that no parameter is sent
    with an empty value. The query text of the URL that is returned is the
    serialisation of these very tuples. The paths are those of the program:
    a path without a query of its own. *)
Theorem C6_omitted_parameters {platform : URLPlatform} (prefs : Prefs) :
  URL_conforms platform →
  (∀ params url,
      state params = Some "all" →
      listURL prefs params = Return url →
      "state" ∉ query_keys url)
  ∧ (∀ path entries url key,
      plain_path (strip_leading_slash path) = true →
      (∀ value, (key, value) ∈ entries → is_skipped value = true) →
      buildGitLabURL_object prefs path (Some entries) = Return url →
      key ∉ query_keys url)
  ∧ (∀ path entries url key value,
      plain_path (strip_leading_slash path) = true →
      buildGitLabURL_object prefs path (Some entries) = Return url →
      (key, value) ∈ url_list url →
      value ≠ "")
  ∧ (∀ path entries url,
      plain_path (strip_leading_slash path) = true →
      buildGitLabURL_object prefs path (Some entries) = Return url →
      query_synced url
      ∧ buildGitLabURL prefs path (Some entries) = Return (URL_toString url)).
Proof.
  intros Hconf.
  assert (Hskip : ∀ path entries url key,
      plain_path (strip_leading_slash path) = true →
      (∀ value, (key, value) ∈ entries → is_skipped value = true) →
      buildGitLabURL_object prefs path (Some entries) = Return url →
      key ∉ query_keys url).
  { intros path entries url key Hplain Hsk Hb.
    unfold query_keys. rewrite list_elem_of_fmap. intros ([k v] & -> & Hin).
    destruct (buildGitLabURL_object_plain _ _ _ _ _ Hconf Hplain Hb Hin)
      as (value & Hv & Hns & _).
    simpl in Hv. rewrite (Hsk _ Hv) in Hns. done. }
  split; [|split; [exact Hskip|split]].
  - intros params url Hall Hurl.
    apply (Hskip "/api/v4/merge_requests" (listParams params)); [done| |done].
    intros value. unfold listParams, effectiveState, state_of.
    rewrite Hall. simpl. rewrite !elem_of_cons, elem_of_nil.
    intros [H|[H|[H|[H|[H|[H|[H|[]]]]]]]]; by simplify_eq.
  - intros path entries url key value Hplain Hb Hin.
    destruct (buildGitLabURL_object_plain _ _ _ _ _ Hconf Hplain Hb Hin)
      as (v & _ & Hns & Hv).
    simpl in Hv. rewrite Hv. by apply String_of_nonempty.
  - intros path entries url Hplain Hb. split.
    + unfold buildGitLabURL_object in Hb.
      destruct (URL_new _ _) as [url0|] eqn:Hnew; [|done].
      injection Hb as <-. apply foldl_set_entry_synced.
      destruct (Hconf _ _ _ Hplain Hnew) as [Hq Hl].
      unfold query_synced. by rewrite Hq, Hl.
    + unfold buildGitLabURL. by rewrite Hb.
Qed.

Lemma URLRef_conforms : URL_conforms URLRef.
Proof.
  intros input base url _. unfold URL_new, URLRef, URL_new_ref.
  destruct (has_scheme base && plain_path input); [|done].
  by intros [= <-].
Qed.

Lemma C6_omitted_parameters_witness :
  ∃ url, listURL (platform := URLRef) example_prefs params_state_all = Return url
         ∧ ("state" ∉ query_keys url)
         ∧ ("search" ∉ query_keys url)
         ∧ URL_toString url
           = "https://gitlab.example.com/api/v4/merge_requests?scope=created_by_me&order_by=updated_at&sort=desc&per_page=20".
Proof.
  destruct (C6_omitted_parameters (platform := URLRef) example_prefs URLRef_conforms)
    as (Hstate & Hskip & _ & _).
  eexists. split; [reflexivity|]. split; [|split; [|reflexivity]].
  - by apply (Hstate params_state_all).
  - apply (Hskip "/api/v4/merge_requests" (listParams params_state_all));
      [done| |done].
    intros value. unfold listParams. simpl.
    rewrite !elem_of_cons, elem_of_nil.
    intros [H|[H|[H|[H|[H|[H|[H|[]]]]]]]]; by simplify_eq.
Defined.

(** ** The list hook *)

Lemma bind_Return {A B} (c : Completion A) (k : A → Completion B) (b : B) :
  c ≫= k = Return b → ∃ a, c = Return a ∧ k a = Return b.
Proof. destruct c as [a|e]; [|done]. intros H. by exists a. Qed.

Lemma shouldDefer_spec (params : UseMergeRequestsParams) :
  shouldDefer params = true ↔ scope_of params = "all" ∧ search_of params = "".
Proof.
  unfold shouldDefer. rewrite andb_true_iff, !bool_decide_eq_true. done.
Qed.

Lemma useMergeRequests_no_token {platform : URLPlatform}
    (prefs : Prefs) (params : UseMergeRequestsParams) :
  gitlabToken prefs = "" →
  dispatches (useMergeRequests prefs params) = false.
Proof.
  intros Ht. unfold useMergeRequests.
  destruct (buildGitLabURL _ _ _) as [url|e]; [|done]. simpl.
  by rewrite decide_True.
Qed.

Lemma useMergeRequests_execute {platform : URLPlatform}
    (prefs : Prefs) (params : UseMergeRequestsParams) (call : UseFetchCall) :
  useMergeRequests prefs params = Return (UseFetch call) →
  execute call = negb (shouldDefer params).
Proof.
  unfold useMergeRequests. intros (url & _ & Hrun)%bind_Return.
  destruct (decide (gitlabToken prefs = "")); [done|].
  by injection Hrun as <-.
Qed.

Lemma useMergeRequests_configured {platform : URLPlatform}
    (prefs : Prefs) (params : UseMergeRequestsParams) :
  gitlabToken prefs ≠ "" →
  instance_accepted prefs →
  ∃ call, useMergeRequests prefs params = Return (UseFetch call).
Proof.
  intros Ht [url Hurl]. unfold useMergeRequests, buildGitLabURL, buildGitLabURL_object.
  change (strip_leading_slash "/api/v4/merge_requests") with "api/v4/merge_requests".
  rewrite Hurl. simpl. rewrite decide_False by done. by eexists.
Qed.

(** C7 (as the code has it). With scope [all] and an empty search text no list
    request is sent; the [execute] flag given to [useFetch] is false in
    exactly this case; and for every other scope and search text the request
    is sent, provided that a token is configured and that the URL can be
    built. *)
Theorem C7_deferred_execution {platform : URLPlatform}
    (prefs : Prefs) (params : UseMergeRequestsParams) :
  (scope_of params = "all" ∧ search_of params = "" →
   dispatches (useMergeRequests prefs params) = false)
  ∧ (∀ call, useMergeRequests prefs params = Return (UseFetch call) →
       (execute call = false ↔ scope_of params = "all" ∧ search_of params = ""))
  ∧ (gitlabToken prefs ≠ "" → instance_accepted prefs →
     ¬ (scope_of params = "all" ∧ search_of params = "") →
     dispatches (useMergeRequests prefs params) = true).
Proof.
  assert (Hflag : ∀ call, useMergeRequests prefs params = Return (UseFetch call) →
    (execute call = false ↔ scope_of params = "all" ∧ search_of params = "")).
  { intros call Hex%useMergeRequests_execute.
    rewrite Hex, negb_false_iff. apply shouldDefer_spec. }
  split; [|split; [exact Hflag|]].
  - intros Hall. destruct (useMergeRequests prefs params) as [[|call]|] eqn:E; try done.
    simpl. by apply (Hflag call).
  - intros Ht Hacc Hn.
    destruct (useMergeRequests_configured prefs params Ht Hacc) as [call Hcall].
    rewrite Hcall. simpl. apply not_false_is_true. intros E.
    by apply Hn, (Hflag call).
Qed.

Lemma useMergeRequests_url {platform : URLPlatform}
    (prefs : Prefs) (params : UseMergeRequestsParams) (call : UseFetchCall) :
  useMergeRequests prefs params = Return (UseFetch call) →
  ∃ url, listURL prefs params = Return url ∧ fetch_url call = URL_toString url.
Proof.
  unfold useMergeRequests, buildGitLabURL, listURL.
  destruct (buildGitLabURL_object _ _ _) as [url|e]; [|done]. simpl.
  destruct (decide (gitlabToken prefs = "")); [done|].
  intros [= <-]. by exists url.
Qed.

(** The query [{search: "", scope: "assigned_to_me", state: "opened",
    perPage: 20}]: no [search] and no [in]. *)
Example useMergeRequests_example :
  useMergeRequests (platform := URLRef) example_prefs
    {| search := Some ""; scope := Some "assigned_to_me";
       state := Some "opened"; perPage := Some 20 |}
  = Return (UseFetch
      {| fetch_url := "https://gitlab.example.com/api/v4/merge_requests?scope=assigned_to_me&state=opened&order_by=updated_at&sort=desc&per_page=20";
         keepPreviousData := true; execute := true;
         fetch_headers := [("PRIVATE-TOKEN", "glpat-1")] |}).
Proof. reflexivity. Qed.

(** A parameter that the caller leaves out takes its default and is sent. *)
Example useMergeRequests_defaults :
  ∃ url, listURL (platform := URLRef) example_prefs params_default = Return url
         ∧ query_keys url = ["scope"; "state"; "order_by"; "sort"; "per_page"].
Proof. eexists. split; reflexivity. Qed.

Example deferred_example :
  ∃ call,
    useMergeRequests (platform := URLRef) example_prefs params_all_empty
    = Return (UseFetch call)
    ∧ execute call = false.
Proof. eexists. split; reflexivity. Qed.

Example executed_example :
  ∃ call,
    useMergeRequests (platform := URLRef) example_prefs params_assigned
    = Return (UseFetch call)
    ∧ execute call = true
    ∧ fetch_url call
      = "https://gitlab.example.com/api/v4/merge_requests?search=fix&in=title&scope=assigned_to_me&state=opened&order_by=updated_at&sort=desc&per_page=20".
Proof. eexists. split; [reflexivity|]. split; reflexivity. Qed.

(** The claim C7 as it is written promises the request for every other scope
    and search text; without a token the request is not sent. *)
Lemma C7_counterexample :
  ¬ (scope_of params_assigned = "all" ∧ search_of params_assigned = "")
  ∧ dispatches (useMergeRequests (platform := URLRef) no_token_prefs params_assigned)
    = false.
Proof. split; [by intros [? _]|reflexivity]. Qed.

(** C9 (as the code has it). Without a token the hook sends no request; and
    when the URL constructor accepts the instance as a base it gives back the
    error object: no data, not loading, the error [GitLab token not set in
    preferences]. When the constructor rejects the instance the hook throws
    before it looks at the token. *)
Theorem C9_no_token {platform : URLPlatform}
    (prefs : Prefs) (params : UseMergeRequestsParams) :
  gitlabToken prefs = "" →
  dispatches (useMergeRequests prefs params) = false
  ∧ (instance_accepted prefs →
     useMergeRequests prefs params
     = Return (Immediate None false
                 (Some (Error "GitLab token not set in preferences"))))
  ∧ (¬ instance_accepted prefs →
     useMergeRequests prefs params = Throw (TypeError "Invalid URL")).
Proof.
  intros Ht. split; [by apply useMergeRequests_no_token|].
  unfold instance_accepted, useMergeRequests, buildGitLabURL, buildGitLabURL_object.
  change (strip_leading_slash "/api/v4/merge_requests") with "api/v4/merge_requests".
  split.
  - intros [url ->]. simpl. by rewrite decide_True.
  - intros Hn. destruct (URL_new _ _) as [url|]; [|done].
    destruct Hn. by eexists.
Qed.

Lemma C9_no_token_witness :
  dispatches (useMergeRequests (platform := URLRef) no_token_prefs params_default)
  = false
  ∧ useMergeRequests (platform := URLRef) no_token_prefs params_default
    = Return (Immediate None false
                (Some (Error "GitLab token not set in preferences"))).
Proof.
  destruct (C9_no_token (platform := URLRef) no_token_prefs params_default)
    as (H1 & H2 & _); [reflexivity|].
  split; [exact H1|]. apply H2. by eexists.
Defined.

(** The claim C9 as it is written covers every setting without a token; with
    an instance that is not a URL (here the scheme is missing) the URL is
    built, and the constructor throws, before the token is looked at. *)
Lemma C9_counterexample :
  gitlabToken no_scheme_prefs = ""
  ∧ useMergeRequests (platform := URLRef) no_scheme_prefs params_default
    = Throw (TypeError "Invalid URL").
Proof. split; reflexivity. Qed.

(** ** The approvals hook *)

Section ApprovalsFacts.
Context {platform : URLPlatform} {network : Network}.

(** The callback never rejects: its promise resolves with [lookup_entry]. *)
Lemma lookup_Return (prefs : Prefs) (mr : MergeRequest) :
  lookup prefs mr = Return (lookup_entry prefs mr).
Proof. unfold lookup, lookup_entry, try_catch. by destruct (lookup_try prefs mr). Qed.

Lemma lookup_all_Return (prefs : Prefs) (subset : list MergeRequest) :
  lookup_all prefs subset = Return (lookup_entry prefs <$> subset).
Proof.
  unfold lookup_all. induction subset as [|mr subset IH]; [done|].
  simpl. by rewrite lookup_Return, IH.
Qed.

Lemma lookup_entry_fails (prefs : Prefs) (mr : MergeRequest) :
  item_fails prefs mr = true → lookup_entry prefs mr = None.
Proof.
  unfold item_fails, lookup_entry, lookup_try.
  destruct (buildGitLabURL _ _ _) as [url|e]; [|done]. simpl.
  by destruct (fetch _ _) as [|[] [json|]].
Qed.

Lemma lookup_entry_succeeds (prefs : Prefs) (mr : MergeRequest) :
  item_fails prefs mr = false →
  ∃ v, lookup_entry prefs mr = Some (mr_id mr, v).
Proof.
  unfold item_fails, lookup_entry, lookup_try.
  destruct (buildGitLabURL _ _ _) as [url|e]; [|done]. simpl.
  destruct (fetch _ _) as [|[] [json|]]; try done. by eexists.
Qed.

Lemma lookup_entry_key (prefs : Prefs) (mr : MergeRequest) k v :
  lookup_entry prefs mr = Some (k, v) → k = mr_id mr.
Proof.
  destruct (item_fails prefs mr) eqn:E.
  - by rewrite (lookup_entry_fails _ _ E).
  - destruct (lookup_entry_succeeds _ _ E) as [v' ->]. by intros [= <- _].
Qed.

(** The failed items can be left out of the batch without changing the map. *)
Lemma foldl_add_entry_filter (prefs : Prefs) (subset : list MergeRequest)
    (m : gmap Z bool) :
  foldl add_entry m (lookup_entry prefs <$> subset)
  = foldl add_entry m
      (lookup_entry prefs <$> filter (λ mr, item_fails prefs mr = false) subset).
Proof.
  revert m. induction subset as [|mr subset IH]; intros m; [done|].
  rewrite filter_cons. destruct (decide (item_fails prefs mr = false)) as [Hok|Hf].
  - simpl. apply IH.
  - apply not_false_is_true in Hf. simpl.
    rewrite (lookup_entry_fails _ _ Hf). simpl. apply IH.
Qed.

(** The keys written by the loop are the identifiers of the entries. *)
Lemma foldl_add_entry_lookup (entries : list Entry) (m : gmap Z bool) (k : Z) :
  (∀ v, Some (k, v) ∉ entries) →
  foldl add_entry m entries !! k = m !! k.
Proof.
  revert m. induction entries as [|e entries IH]; intros m Hk; [done|].
  simpl. rewrite IH.
  - destruct e as [[k' v']|]; [|done]. simpl.
    apply lookup_insert_ne. intros ->. apply (Hk v'). by left.
  - intros v Hin. apply (Hk v). by right.
Qed.

Lemma merge_entries_lookup_absent (prev : gmap Z bool) (entries : list Entry) k :
  (∀ v, Some (k, v) ∉ entries) →
  merge_entries prev entries !! k = prev !! k.
Proof.
  intros Hk. unfold merge_entries, entries_map.
  rewrite lookup_union_r; [done|].
  by rewrite foldl_add_entry_lookup.
Qed.

(** What a settling batch does to the map. *)
Lemma settle_live (b : nat) (st : HookState) (batch : Batch) :
  batches st !! b = Some batch →
  settled batch = false →
  cancelled batch = false →
  approvedMap (settle b st)
  = merge_entries (approvedMap st)
      (lookup_entry (batch_prefs batch) <$> batch_subset batch).
Proof.
  intros Hb Hs Hc. unfold settle. rewrite Hb, Hs, lookup_all_Return, Hc. done.
Qed.

Lemma settle_cancelled (b : nat) (st : HookState) (batch : Batch) :
  batches st !! b = Some batch →
  cancelled batch = true →
  approvedMap (settle b st) = approvedMap st.
Proof.
  intros Hb Hc. unfold settle. rewrite Hb.
  destruct (settled batch); [done|]. by rewrite lookup_all_Return, Hc.
Qed.
End ApprovalsFacts.

(** *** The second dependency of the effect names the identifiers *)

Lemma pretty_N_go_not_comma (x : N) (s : string) :
  all_chars not_comma s = true → all_chars not_comma (pretty_N_go x s) = true.
Proof.
  revert s. induction (N.lt_wf_0 x) as [x _ IH]; intros s Hs.
  destruct (decide (x = 0)%N) as [->|Hx]; [by rewrite pretty_N_go_0|].
  rewrite pretty_N_go_step by lia. apply IH; [apply N.div_lt; lia|].
  simpl. rewrite Hs, andb_true_r. unfold pretty_N_char. by repeat case_match.
Qed.

Lemma pretty_Z_not_comma (n : Z) : all_chars not_comma (pretty n) = true.
Proof.
  assert (Hpos : ∀ p : positive, all_chars not_comma (pretty p) = true).
  { intros p. unfold pretty, pretty_positive, pretty, pretty_N.
    rewrite decide_False by done. by apply pretty_N_go_not_comma. }
  destruct n as [|p|p]; [done|apply Hpos|].
  change (pretty (Z.neg p)) with ("-" +:+ pretty p). simpl. apply Hpos.
Qed.

Lemma concat_cons (x : string) (l : list string) :
  String.concat "," (x :: l) = x +:+ join_tail l.
Proof.
  destruct l as [|y l]; [|done]. simpl.
  induction x as [|c x IH]; [done|].
  change (String c x +:+ "") with (String c (x +:+ "")). by f_equal.
Qed.

Lemma join_tail_shape (l : list string) :
  join_tail l = "" ∨ ∃ r, join_tail l = String ","%char r.
Proof. destruct l; [by left|right]. by eexists. Qed.

Lemma append_cons (c : ascii) (a s : string) :
  String c a +:+ s = String c (a +:+ s).
Proof. done. Qed.

(** Two joined texts are equal only when their first elements are. *)
Lemma comma_free_split (a b ra rb : string) :
  all_chars not_comma a = true → all_chars not_comma b = true →
  (ra = "" ∨ ∃ r, ra = String ","%char r) →
  (rb = "" ∨ ∃ r, rb = String ","%char r) →
  a +:+ ra = b +:+ rb → a = b ∧ ra = rb.
Proof.
  revert b. induction a as [|c a IH]; intros [|d b] Ha Hb Hra Hrb;
    rewrite ?append_cons; change ("" +:+ ?s) with s.
  - done.
  - intros ->. apply andb_true_iff in Hb as [Hd _].
    by destruct Hra as [[=]|[r [= -> _]]].
  - intros <-. apply andb_true_iff in Ha as [Hc _].
    by destruct Hrb as [[=]|[r [= -> _]]].
  - intros [= -> Heq]. apply andb_true_iff in Ha as [_ Ha].
    apply andb_true_iff in Hb as [_ Hb].
    by destruct (IH b Ha Hb Hra Hrb Heq) as [-> ->].
Qed.

Lemma concat_pretty_inj (l1 l2 : list Z) :
  String.concat "," (pretty <$> l1) = String.concat "," (pretty <$> l2) → l1 = l2.
Proof.
  revert l2. induction l1 as [|x l1 IH]; intros [|y l2].
  - done.
  - rewrite fmap_cons, concat_cons. intros H. symmetry in H.
    destruct (pretty y) eqn:E; [by destruct (pretty_Z_nonempty y)|done].
  - rewrite fmap_cons, concat_cons. intros H.
    destruct (pretty x) eqn:E; [by destruct (pretty_Z_nonempty x)|done].
  - rewrite !fmap_cons, !concat_cons. intros H.
    apply comma_free_split in H as [Hxy Ht];
      auto using pretty_Z_not_comma, join_tail_shape.
    apply (inj pretty) in Hxy as ->. f_equal. apply IH.
    destruct l1, l2; simpl in Ht; try done.
    by injection Ht.
Qed.

Lemma ids_key_inj (mrs1 mrs2 : list MergeRequest) :
  ids_key mrs1 = ids_key mrs2 → mr_id <$> mrs1 = mr_id <$> mrs2.
Proof.
  unfold ids_key. intros H. apply concat_pretty_inj.
  by rewrite <-!list_fmap_compose.
Qed.

Section ApprovalsClaims.
Context {platform : URLPlatform} {network : Network}.

Lemma render_starts_batch (prefs : Prefs) (mrs : list MergeRequest)
    (st : HookState) (b : nat) :
  deps_changed st prefs mrs = true →
  cleanup (render prefs mrs st) = Some b →
  approvedMap (render prefs mrs st) = approvedMap st
  ∧ b = length (batches st)
  ∧ batches (render prefs mrs st) !! b
    = Some {| batch_prefs := prefs; batch_subset := subset_of mrs;
              cancelled := false; settled := false |}.
Proof.
  intros Hd. unfold render. rewrite Hd.
  destruct (bool_decide (gitlabToken prefs = "") || bool_decide (mrs = []));
    [done|].
  simpl. intros [= <-].
  assert (Hlen : length (run_cleanup st) = length (batches st)).
  { unfold run_cleanup. destruct (cleanup st); [apply length_alter|done]. }
  split; [done|]. split; [done|].
  by rewrite lookup_app_r, Nat.sub_diag.
Qed.

(** C4 (as the code has it). A render that starts a batch looks up the first
    25 items only: the batch holds [mrs.slice(0, 25)] and makes one lookup for
    each of its items. When the batch settles, every key of the map was in the
    map before or is the identifier of one of the first 25 items; so an item
    past position 25 has no key, provided that it had none before and that its
    identifier is not shared by one of the first 25. *)
Theorem C4_first_25 (prefs : Prefs) (mrs : list MergeRequest)
    (st : HookState) (b : nat) :
  deps_changed st prefs mrs = true →
  cleanup (render prefs mrs st) = Some b →
  ∃ batch,
    batches (render prefs mrs st) !! b = Some batch
    ∧ batch_subset batch = take 25 mrs
    ∧ (∀ i mr, batch_subset batch !! i = Some mr →
         (i < 25)%nat ∧ mrs !! i = Some mr)
    ∧ (∃ entries,
         lookup_all (batch_prefs batch) (batch_subset batch) = Return entries
         ∧ length entries = (25 `min` length mrs)%nat)
    ∧ (∀ k, is_Some (approvedMap (settle b (render prefs mrs st)) !! k) →
         is_Some (approvedMap st !! k)
         ∨ ∃ i mr, (i < 25)%nat ∧ mrs !! i = Some mr ∧ mr_id mr = k)
    ∧ (∀ i mr, (25 ≤ i)%nat → mrs !! i = Some mr →
         approvedMap st !! mr_id mr = None →
         (∀ j mr', (j < 25)%nat → mrs !! j = Some mr' → mr_id mr' ≠ mr_id mr) →
         approvedMap (settle b (render prefs mrs st)) !! mr_id mr = None).
Proof.
  intros Hd Hc.
  destruct (render_starts_batch _ _ _ _ Hd Hc) as (Hmap & _ & Hb).
  eexists. split; [exact Hb|]. split; [done|].
  split; [intros i mr Hi; simpl in Hi; unfold subset_of in Hi;
          apply lookup_take_Some in Hi; tauto|].
  split.
  { eexists. split; [apply lookup_all_Return|].
    simpl. unfold subset_of. by rewrite length_fmap, length_take. }
  assert (Hkeys : ∀ k,
    (∀ j mr', (j < 25)%nat → mrs !! j = Some mr' → mr_id mr' ≠ k) →
    approvedMap (settle b (render prefs mrs st)) !! k = approvedMap st !! k).
  { intros k Hk. rewrite (settle_live _ _ _ Hb) by done. simpl.
    rewrite Hmap. apply merge_entries_lookup_absent.
    intros v [mr [Hv Hin]]%list_elem_of_fmap.
    symmetry in Hv. apply lookup_entry_key in Hv.
    apply list_elem_of_lookup in Hin as [j Hj].
    unfold subset_of in Hj. apply lookup_take_Some in Hj as [Hj Hlt].
    by apply (Hk j mr). }
  split.
  - intros k Hk.
    destruct (decide (k ∈ mr_id <$> take 25 mrs)) as [Hin|Hn].
    + right. apply list_elem_of_fmap in Hin as (mr' & -> & Hin).
      apply list_elem_of_lookup in Hin as [j [Hmr Hj]%lookup_take_Some].
      by exists j, mr'.
    + left. rewrite <-Hkeys; [done|].
      intros j mr' Hj Hmr Hid. apply Hn, list_elem_of_fmap.
      exists mr'. split; [done|]. apply list_elem_of_lookup. exists j.
      by apply lookup_take_Some.
  - intros i mr _ _ Hnone Hfresh. by rewrite Hkeys.
Qed.
(** C5 (as the code has it). When a batch settles no error comes out of the
    lookups: an item whose lookup failed gives the entry [undefined]. The map
    after the batch is the one that the batch without its failed items gives;
    and the key of a failed item is left as it was before the batch (absent
    when it was absent), unless another item of the batch has the same
    identifier and succeeded. *)
Theorem C5_failed_lookups (st : HookState) (b : nat) (batch : Batch) :
  batches st !! b = Some batch →
  settled batch = false →
  cancelled batch = false →
  (∃ entries,
      lookup_all (batch_prefs batch) (batch_subset batch) = Return entries
      ∧ ∀ i mr, batch_subset batch !! i = Some mr →
                item_fails (batch_prefs batch) mr = true →
                entries !! i = Some None)
  ∧ approvedMap (settle b st)
    = merge_entries (approvedMap st)
        (lookup_entry (batch_prefs batch)
           <$> filter (λ mr, item_fails (batch_prefs batch) mr = false)
                 (batch_subset batch))
  ∧ (∀ mr, mr ∈ batch_subset batch →
       item_fails (batch_prefs batch) mr = true →
       (∀ mr', mr' ∈ batch_subset batch → mr_id mr' = mr_id mr →
               item_fails (batch_prefs batch) mr' = true) →
       approvedMap (settle b st) !! mr_id mr = approvedMap st !! mr_id mr).
Proof.
  intros Hb Hs Hc. split; [|split].
  - eexists. split; [apply lookup_all_Return|].
    intros i mr Hi Hf. rewrite list_lookup_fmap, Hi. simpl.
    by rewrite (lookup_entry_fails _ _ Hf).
  - rewrite (settle_live _ _ _ Hb Hs Hc). unfold merge_entries, entries_map.
    by rewrite foldl_add_entry_filter.
  - intros mr Hin Hf Hall. rewrite (settle_live _ _ _ Hb Hs Hc).
    apply merge_entries_lookup_absent.
    intros v [mr' [Hv Hin']]%list_elem_of_fmap.
    symmetry in Hv. pose proof (lookup_entry_key _ _ _ _ Hv) as Hk.
    rewrite (lookup_entry_fails _ mr') in Hv; [done|]. by apply Hall.
Qed.

(** *** Batches that were superseded *)

Lemma run_cleanup_length (st : HookState) :
  length (run_cleanup st) = length (batches st).
Proof. unfold run_cleanup. destruct (cleanup st); [apply length_alter|done]. Qed.

Lemma run_cleanup_cancelled (st : HookState) (j : nat) (batch : Batch) :
  hook_invariant st →
  run_cleanup st !! j = Some batch → cancelled batch = true.
Proof.
  intros [_ Hinv]. unfold run_cleanup.
  destruct (cleanup st) as [c|] eqn:Hc.
  - destruct (decide (c = j)) as [->|Hne].
    + rewrite list_lookup_alter_eq.
      destruct (batches st !! j); [|done]. by intros [= <-].
    + rewrite list_lookup_alter_ne by done. intros Hj.
      destruct (cancelled batch) eqn:E; [done|].
      specialize (Hinv _ _ Hj E). congruence.
  - intros Hj. destruct (cancelled batch) eqn:E; [done|].
    by specialize (Hinv _ _ Hj E).
Qed.

Lemma render_invariant (prefs : Prefs) (mrs : list MergeRequest) (st : HookState) :
  hook_invariant st → hook_invariant (render prefs mrs st).
Proof.
  intros Hinv. unfold render.
  destruct (deps_changed st prefs mrs); [|done].
  destruct (bool_decide (gitlabToken prefs = "") || bool_decide (mrs = [])).
  - split; simpl; [done|].
    intros j batch Hj Hc.
    by rewrite (run_cleanup_cancelled _ _ _ Hinv Hj) in Hc.
  - split; simpl.
    + intros j [= <-]. rewrite length_app. simpl. lia.
    + intros j batch Hj Hc. f_equal.
      apply lookup_app_Some in Hj as [Hj|[Hge Hj]].
      * by rewrite (run_cleanup_cancelled _ _ _ Hinv Hj) in Hc.
      * apply list_lookup_singleton_Some in Hj as [Hj _]. lia.
Qed.

Lemma settle_invariant (b : nat) (st : HookState) :
  hook_invariant st → hook_invariant (settle b st).
Proof.
  intros [Hlen Hinv]. unfold settle.
  destruct (batches st !! b) as [batch|] eqn:Hb; [|done].
  destruct (settled batch); [done|].
  assert (Hpres : ∀ m, hook_invariant
    {| approvedMap := m; last_deps := last_deps st;
       batches := alter settle_batch b (batches st); cleanup := cleanup st |}).
  { intros m. split; simpl.
    - intros j Hj. rewrite length_alter. by apply Hlen.
    - intros j batch' Hj Hc. destruct (decide (b = j)) as [->|Hne].
      + rewrite list_lookup_alter_eq, Hb in Hj. injection Hj as <-.
        by apply (Hinv j batch).
      + rewrite list_lookup_alter_ne in Hj by done. by apply (Hinv j batch'). }
  destruct (lookup_all _ _); [destruct (cancelled batch)|]; apply Hpres.
Qed.

Lemma unmount_invariant (st : HookState) :
  hook_invariant st → hook_invariant (unmount st).
Proof.
  intros Hinv. split; simpl; [done|].
  intros j batch Hj Hc. by rewrite (run_cleanup_cancelled _ _ _ Hinv Hj) in Hc.
Qed.

Lemma run_invariant (evs : list Event) (st : HookState) :
  hook_invariant st → hook_invariant (run st evs).
Proof.
  revert st. induction evs as [|ev evs IH]; intros st Hinv; [done|].
  simpl. apply IH. destruct ev;
    [by apply render_invariant|by apply settle_invariant|by apply unmount_invariant].
Qed.

Lemma initial_invariant : hook_invariant initial.
Proof. split; [done|]. intros j batch Hj. by destruct j. Qed.

Lemma run_cleanup_is_cancelled (b : nat) (st : HookState) :
  is_cancelled b st →
  ∃ batch, run_cleanup st !! b = Some batch ∧ cancelled batch = true.
Proof.
  intros (batch & Hb & Hc). unfold run_cleanup.
  destruct (cleanup st) as [c|]; [|by exists batch].
  destruct (decide (c = b)) as [->|Hne].
  - rewrite list_lookup_alter_eq, Hb. by eexists.
  - rewrite list_lookup_alter_ne by done. by exists batch.
Qed.

Lemma step_is_cancelled (b : nat) (st : HookState) (ev : Event) :
  is_cancelled b st → is_cancelled b (step st ev).
Proof.
  intros Hcan. pose proof Hcan as (batch & Hb & Hc).
  destruct ev as [prefs mrs|b'|]; simpl; [| |by apply run_cleanup_is_cancelled].
  - unfold render. destruct (deps_changed st prefs mrs); [|done].
    destruct (run_cleanup_is_cancelled _ _ Hcan) as (batch' & Hb' & Hc').
    destruct (bool_decide (gitlabToken prefs = "") || bool_decide (mrs = []));
      exists batch'; simpl; [done|].
    split; [|done]. by apply lookup_app_l_Some.
  - unfold settle. destruct (batches st !! b') as [batch'|] eqn:Hb';
      [|by exists batch].
    destruct (settled batch'); [by exists batch|].
    assert (Hcl : ∃ batch'', alter settle_batch b' (batches st) !! b = Some batch''
                             ∧ cancelled batch'' = true).
    { destruct (decide (b' = b)) as [->|Hne].
      - rewrite list_lookup_alter_eq, Hb. by eexists.
      - rewrite list_lookup_alter_ne by done. by exists batch. }
    destruct (lookup_all _ _); [destruct (cancelled batch')|]; exact Hcl.
Qed.

Lemma run_is_cancelled (b : nat) (evs : list Event) (st : HookState) :
  is_cancelled b st → is_cancelled b (run st evs).
Proof.
  revert st. induction evs as [|ev evs IH]; intros st Hc; [done|].
  simpl. by apply IH, step_is_cancelled.
Qed.

Lemma stale_batch_discarded (st : HookState) (later : list Event) (b : nat)
    (prefs : Prefs) (mrs : list MergeRequest) :
  hook_invariant st →
  cleanup st = Some b →
  deps_changed st prefs mrs = true →
  approvedMap (settle b (run (render prefs mrs st) later))
  = approvedMap (run (render prefs mrs st) later).
Proof.
  intros [Hlen _] Hb Hd.
  assert (Hc : is_cancelled b (render prefs mrs st)).
  { specialize (Hlen _ Hb).
    destruct (lookup_lt_is_Some_2 (batches st) b) as [batch Hbatch]; [lia|].
    assert (Hcl : run_cleanup st !! b = Some (cancel batch)).
    { unfold run_cleanup. by rewrite Hb, list_lookup_alter_eq, Hbatch. }
    unfold render. rewrite Hd.
    destruct (bool_decide (gitlabToken prefs = "") || bool_decide (mrs = []));
      exists (cancel batch); simpl; [done|].
    split; [|done]. by apply lookup_app_l_Some. }
  apply (run_is_cancelled _ later) in Hc as (batch & Hbatch & Hc).
  by apply (settle_cancelled _ _ batch).
Qed.

Lemma commit_is_current (st : HookState) (j : nat) :
  hook_invariant st →
  approvedMap (settle j st) ≠ approvedMap st →
  cleanup st = Some j ∧ S j = length (batches st).
Proof.
  intros [Hlen Hinv] Hj.
  destruct (batches st !! j) as [batch|] eqn:Hbatch.
  - destruct (cancelled batch) eqn:E.
    + by rewrite (settle_cancelled _ _ _ Hbatch E) in Hj.
    + pose proof (Hinv _ _ Hbatch E) as Hcur. split; [done|]. by apply Hlen.
  - destruct Hj. unfold settle. by rewrite Hbatch.
Qed.

(** C8. Take the batch [b] that is in flight after any history of the hook,
    started for the list [mrs0]. Once a render has come with a list whose
    identifiers are not those of [mrs0], whatever happens next, the batch
    changes nothing in the map when it settles. And after any history, a batch
    that changes the map when it settles is the one of the current cleanup,
    which is the last one started. *)
Theorem C8_stale_batch_discarded (history later : list Event) (b : nat)
    (prefs0 prefs : Prefs) (mrs0 mrs : list MergeRequest) :
  cleanup (run initial history) = Some b →
  last_deps (run initial history) = Some (deps_of prefs0 mrs0) →
  mr_id <$> mrs ≠ mr_id <$> mrs0 →
  approvedMap (settle b (run (render prefs mrs (run initial history)) later))
  = approvedMap (run (render prefs mrs (run initial history)) later)
  ∧ ∀ past j,
      approvedMap (settle j (run initial past)) ≠ approvedMap (run initial past) →
      cleanup (run initial past) = Some j
      ∧ S j = length (batches (run initial past)).
Proof.
  intros Hb Hdeps Hids. split.
  - apply stale_batch_discarded; [by apply run_invariant, initial_invariant|done|].
    unfold deps_changed. rewrite Hdeps. apply bool_decide_eq_true.
    intros [= _ Hkey]. by apply Hids, ids_key_inj.
  - intros past j. apply commit_is_current. by apply run_invariant, initial_invariant.
Qed.
End ApprovalsClaims.

(** *** The hook on a server where every merge request is approved *)

Example thirty_all_approved :
  map_to_list (approvedMap (run (platform := URLRef) (network := net_approved)
                 initial [Render example_prefs thirty; Settle 0%nat]))
  ≡ₚ (λ n, (100 + n, true)) <$> seqZ 1 25.
Proof.
  apply (bool_decide_unpack _). vm_compute. reflexivity.
Qed.

Lemma C4_first_25_witness :
  approvedMap (settle (platform := URLRef) (network := net_approved) 0
                 (render example_prefs thirty initial))
    !! mr_id (mk_mr 26) = None.
Proof.
  destruct (C4_first_25 (platform := URLRef) (network := net_approved)
              example_prefs thirty initial 0)
    as (batch & _ & _ & _ & _ & _ & Habsent); [reflexivity|reflexivity|].
  apply (Habsent 25%nat (mk_mr 26)); [lia|reflexivity|reflexivity|].
  intros j mr' Hj Hmr.
  do 25 (destruct j as [|j]; [injection Hmr as <-; done|]). lia.
Defined.

(** The claim C4 as it is written gives no key to any item past position 25.
    The map is kept from one batch to the next: after the thirty merge
    requests in the order 101..130, the same in the opposite order put 101
    at position 30, and 101 has its key. *)
Lemma C4_counterexample :
  reverse thirty !! 29%nat = Some (mk_mr 1)
  ∧ approvedMap (run (platform := URLRef) (network := net_approved) initial
                   [Render example_prefs thirty; Settle 0%nat;
                    Render example_prefs (reverse thirty); Settle 1%nat])
      !! mr_id (mk_mr 1) = Some true.
Proof. split; [reflexivity|]. vm_compute. reflexivity. Qed.

Lemma C5_failed_lookups_witness :
  approvedMap (settle (platform := URLRef) (network := net_partial) 0
                 (render example_prefs [mk_mr 1; mk_mr 2] initial))
    !! mr_id (mk_mr 1) = None
  ∧ approvedMap (settle (platform := URLRef) (network := net_partial) 0
                   (render example_prefs [mk_mr 1; mk_mr 2] initial))
      !! mr_id (mk_mr 2) = Some true.
Proof.
  destruct (C5_failed_lookups (platform := URLRef) (network := net_partial)
              (render example_prefs [mk_mr 1; mk_mr 2] initial) 0
              {| batch_prefs := example_prefs;
                 batch_subset := [mk_mr 1; mk_mr 2];
                 cancelled := false; settled := false |})
    as (_ & _ & Hkept); [reflexivity|reflexivity|reflexivity|].
  split; [|by vm_compute].
  rewrite (Hkept (mk_mr 1)); [reflexivity|by left|reflexivity|].
  intros mr' [->|[->|[]%elem_of_nil]%elem_of_cons]%elem_of_cons; [done|].
  intros [=].
Defined.

(** The claim C5 as it is written leaves a failed item out of the returned
    map. The map is kept from one batch to the next: merge request 101 was
    approved in a first batch, its lookup fails in the next one, and it keeps
    its key. *)
Lemma C5_counterexample :
  item_fails (platform := URLRef) (network := net_partial) example_prefs (mk_mr 1)
  = true
  ∧ approvedMap
      (run (platform := URLRef) (network := net_partial)
         (run (platform := URLRef) (network := net_approved) initial
            [Render example_prefs [mk_mr 1]; Settle 0%nat])
         [Render example_prefs [mk_mr 1; mk_mr 2]; Settle 1%nat])
      !! mr_id (mk_mr 1) = Some true.
Proof. split; [reflexivity|]. vm_compute. reflexivity. Qed.

Lemma C8_stale_batch_discarded_witness :
  approvedMap
    (settle (platform := URLRef) (network := net_approved) 0
       (run (platform := URLRef) (network := net_approved)
          (render example_prefs [mk_mr 2]
             (run (platform := URLRef) (network := net_approved) initial
                [Render example_prefs [mk_mr 1]]))
          [Settle 1%nat]))
  = approvedMap
      (run (platform := URLRef) (network := net_approved)
         (render example_prefs [mk_mr 2]
            (run (platform := URLRef) (network := net_approved) initial
               [Render example_prefs [mk_mr 1]]))
         [Settle 1%nat]).
Proof.
  apply (C8_stale_batch_discarded (platform := URLRef) (network := net_approved)
           [Render example_prefs [mk_mr 1]] [Settle 1%nat] 0
           example_prefs example_prefs [mk_mr 1] [mk_mr 2]);
    [reflexivity|reflexivity|by intros [=]].
Defined.

Example stale_batch_example :
  approvedMap (run (platform := URLRef) (network := net_approved) initial
                 [Render example_prefs [mk_mr 1]; Render example_prefs [mk_mr 2];
                  Settle 0%nat; Settle 1%nat])
  = {[ mr_id (mk_mr 2) := true ]}.
Proof. apply map_eq. intros k. vm_compute. reflexivity. Qed.

(** * Further properties of the module *)

(** ** The approval decision, in full *)

(** X1. The decision table of l. 184-200: a record is approved exactly when
    it has an approver and, besides, either a rule is configured with nothing
    left to approve or the server says [approved]. *)
Theorem isApproved_table (json : ApprovalsJSON) :
  isApproved json = true
  ↔ approvers json ≠ []
    ∧ ((0 < approvalsRequired json ∧ approvalsLeft json = Some 0)
       ∨ approved json = Some true).
Proof.
  unfold isApproved, isApproved_rule. rewrite approversCount_pos.
  destruct (bool_decide (approvers json ≠ [])) eqn:Ha.
  - apply bool_decide_eq_true in Ha.
    destruct (bool_decide (0 < approvalsRequired json)) eqn:Hr.
    + apply bool_decide_eq_true in Hr.
      destruct (approvalsLeft json) as [l|] eqn:Hl; simpl.
      * destruct (bool_decide (l = 0)) eqn:Hz; simpl.
        -- apply bool_decide_eq_true in Hz as ->. tauto.
        -- apply bool_decide_eq_false in Hz.
           destruct (approved json) as [[]|]; simpl; split; try done;
             try tauto; intros [_ [[_ [= ?]]|[=]]]; done.
      * destruct (approved json) as [[]|]; simpl; split; try done;
          try tauto; intros [_ [[_ [=]]|[=]]].
    + apply bool_decide_eq_false in Hr.
      destruct (approved json) as [[]|]; simpl; split; try done;
        try tauto; intros [_ [[? _]|[=]]]; done.
  - apply bool_decide_eq_false in Ha. rewrite !andb_false_r.
    destruct (bool_decide (0 < approvalsRequired json)); split; try done; tauto.
Qed.

(** ** The URL builder *)

Lemma endsWith_slash_with_trailing_slash (instance : string) :
  endsWith_slash (with_trailing_slash instance) = true.
Proof.
  unfold with_trailing_slash.
  destruct (endsWith_slash instance) eqn:E; [done|apply endsWith_slash_app].
Qed.

(** X2. The base given to the URL constructor always ends in a slash, a
    second normalisation changes nothing, and at most one character is
    added. *)
Theorem with_trailing_slash_normal (instance : string) :
  endsWith_slash (with_trailing_slash instance) = true
  ∧ with_trailing_slash (with_trailing_slash instance)
    = with_trailing_slash instance
  ∧ (String.length (with_trailing_slash instance)
     ≤ S (String.length instance))%nat.
Proof.
  split; [apply endsWith_slash_with_trailing_slash|]. split.
  - unfold with_trailing_slash at 1.
    by rewrite endsWith_slash_with_trailing_slash.
  - unfold with_trailing_slash. destruct (endsWith_slash instance); [lia|].
    induction instance as [|c s IH]; simpl; [lia|].
    change (String c s +:+ "/") with (String c (s +:+ "/")). simpl. lia.
Qed.

Lemma foldl_set_entry_skipped (entries : SearchParams) (url : URL) :
  (∀ e, e ∈ entries → is_skipped e.2 = true) →
  foldl set_entry url entries = url.
Proof.
  revert url. induction entries as [|e entries IH]; intros url Hs; [done|].
  simpl. unfold set_entry at 2. rewrite (Hs e) by (by left).
  apply IH. intros e' He'. apply Hs. by right.
Qed.

(** X3. A parameter object of which every value is undefined, null or the
    empty string gives the URL of the call without parameters, for any path
    and any instance. *)
Theorem buildGitLabURL_all_skipped {platform : URLPlatform}
    (prefs : Prefs) (path : string) (entries : SearchParams) :
  (∀ e, e ∈ entries → is_skipped e.2 = true) →
  buildGitLabURL prefs path (Some entries) = buildGitLabURL prefs path None.
Proof.
  intros Hs. unfold buildGitLabURL, buildGitLabURL_object.
  destruct (URL_new _ _) as [url|]; [|done].
  by rewrite (foldl_set_entry_skipped _ _ Hs).
Qed.

Lemma buildGitLabURL_all_skipped_witness :
  buildGitLabURL (platform := URLRef) example_prefs "/api/v4/merge_requests"
    (Some [("search", VString ""); ("state", VUndefined); ("in", VNull)])
  = buildGitLabURL (platform := URLRef) example_prefs "/api/v4/merge_requests" None.
Proof.
  apply (buildGitLabURL_all_skipped (platform := URLRef)).
  intros e. rewrite !elem_of_cons, elem_of_nil.
  intros [->|[->|[->|[]]]]; reflexivity.
Defined.

Lemma list_set_fresh (name value : string) (l : list (string * string)) :
  name ∉ l.*1 → list_set name value l = (l ++ [(name, value)])%list.
Proof.
  induction l as [|p l IH]; [done|]. rewrite fmap_cons, not_elem_of_cons.
  intros [Hp Hl]. simpl. rewrite decide_False by done. by rewrite IH.
Qed.

Lemma kept_entries_keys (entries : SearchParams) (k : string) :
  k ∈ (kept_entries entries).*1 → k ∈ entries.*1.
Proof.
  unfold kept_entries. rewrite !list_elem_of_fmap.
  intros ([k' v'] & -> & Hin). apply list_elem_of_omap in Hin as (e & He & Hk).
  exists e. split; [|done]. destruct (is_skipped e.2); [done|]. by injection Hk.
Qed.

(** With names that are all different and new to the URL, the loop appends
    the kept entries in their order. *)
Lemma foldl_set_entry_exact (entries : SearchParams) (url : URL) :
  NoDup entries.*1 →
  (∀ k, k ∈ entries.*1 → k ∉ query_keys url) →
  url_list (foldl set_entry url entries)
  = (url_list url ++ kept_entries entries)%list.
Proof.
  revert url. induction entries as [|[k v] entries IH]; intros url Hnd Hnew.
  - simpl. by rewrite app_nil_r.
  - rewrite fmap_cons in Hnd. apply NoDup_cons in Hnd as [Hk Hnd].
    simpl. unfold kept_entries. simpl. fold (kept_entries entries).
    unfold set_entry at 2. simpl.
    assert (Hfresh : k ∉ query_keys url) by (apply Hnew; by left).
    destruct (is_skipped v) eqn:Hs.
    + apply IH; [done|]. intros k' Hk'. apply Hnew. by right.
    + rewrite IH; [|done|].
      * simpl. rewrite (list_set_fresh _ _ _ Hfresh). by rewrite <-app_assoc.
      * intros k' Hk'. unfold query_keys. simpl.
        rewrite (list_set_fresh _ _ _ Hfresh), fmap_app, elem_of_app.
        simpl. rewrite list_elem_of_singleton.
        intros [Hin| ->]; [|done]. revert Hin. apply Hnew. by right.
Qed.

Lemma buildGitLabURL_object_synced {platform : URLPlatform}
    (prefs : Prefs) (path : string) (entries : SearchParams) (url : URL) :
  URL_conforms platform →
  plain_path (strip_leading_slash path) = true →
  buildGitLabURL_object prefs path (Some entries) = Return url →
  query_synced url.
Proof.
  intros Hconf Hplain Hb. unfold buildGitLabURL_object in Hb.
  destruct (URL_new _ _) as [url0|] eqn:Hnew; [|done].
  injection Hb as <-. apply foldl_set_entry_synced.
  destruct (Hconf _ _ _ Hplain Hnew) as [Hq Hl].
  unfold query_synced. by rewrite Hq, Hl.
Qed.

Lemma buildGitLabURL_object_kept {platform : URLPlatform}
    (prefs : Prefs) (path : string) (entries : SearchParams) (url : URL) :
  URL_conforms platform →
  plain_path (strip_leading_slash path) = true →
  NoDup entries.*1 →
  buildGitLabURL_object prefs path (Some entries) = Return url →
  url_list url = kept_entries entries.
Proof.
  intros Hconf Hplain Hnd Hb. unfold buildGitLabURL_object in Hb.
  destruct (URL_new _ _) as [url0|] eqn:Hnew; [|done].
  injection Hb as <-. destruct (Hconf _ _ _ Hplain Hnew) as [_ Hl0].
  rewrite foldl_set_entry_exact; [by rewrite Hl0|done|].
  intros k _. unfold query_keys. rewrite Hl0. apply not_elem_of_nil.
Qed.

(** X4. For a path without a query of its own and a parameter object (whose
    keys are all different, as those of an object are), the query of the built
    URL holds exactly the entries that are not skipped, in the order of the
    object, each with the text of its value; its text is their
    serialisation. *)
Theorem buildGitLabURL_query {platform : URLPlatform}
    (prefs : Prefs) (path : string) (entries : SearchParams) (url : URL) :
  URL_conforms platform →
  plain_path (strip_leading_slash path) = true →
  NoDup entries.*1 →
  buildGitLabURL_object prefs path (Some entries) = Return url →
  url_list url = kept_entries entries
  ∧ url_query url
    = (if decide (kept_entries entries = []) then None
       else Some (urlencoded_serialize (kept_entries entries)))
  ∧ buildGitLabURL prefs path (Some entries) = Return (URL_toString url).
Proof.
  intros Hconf Hplain Hnd Hb.
  pose proof (buildGitLabURL_object_kept _ _ _ _ Hconf Hplain Hnd Hb) as Hl.
  split; [done|].
  pose proof (buildGitLabURL_object_synced _ _ _ _ Hconf Hplain Hb) as Hq.
  unfold query_synced in Hq. rewrite Hl in Hq. split; [done|].
  unfold buildGitLabURL. by rewrite Hb.
Qed.

Lemma buildGitLabURL_query_witness :
  ∃ url,
    buildGitLabURL_object (platform := URLRef) example_prefs "/api/v4/projects"
      (Some [("search", VString "a b"); ("membership", VNull);
             ("per_page", VNumber 5)]) = Return url
    ∧ url_list url = [("search", "a b"); ("per_page", "5")]
    ∧ URL_toString url
      = "https://gitlab.example.com/api/v4/projects?search=a+b&per_page=5".
Proof.
  eexists. split; [reflexivity|].
  edestruct (buildGitLabURL_query (platform := URLRef) example_prefs
               "/api/v4/projects"
               [("search", VString "a b"); ("membership", VNull);
                ("per_page", VNumber 5)]) as (Hl & _ & _);
    [apply URLRef_conforms|reflexivity| |reflexivity|].
  - by apply (bool_decide_unpack _).
  - split; [exact Hl|reflexivity].
Defined.

(** X5. The query of the list request: [search] and [in=title] come together
    and only for a search text; [scope] and [state] are left out when empty,
    and [state] when it is [all]; the order by last update, descending, and
    the page size are always sent, in this order. *)
Theorem listURL_query {platform : URLPlatform}
    (prefs : Prefs) (params : UseMergeRequestsParams) (url : URL) :
  URL_conforms platform →
  listURL prefs params = Return url →
  url_list url
  = ((if decide (search_of params = "") then []
      else [("search", search_of params); ("in", "title")])
     ++ (if decide (scope_of params = "") then []
         else [("scope", scope_of params)])
     ++ (if decide (state_of params = "all" ∨ state_of params = "") then []
         else [("state", state_of params)])
     ++ [("order_by", "updated_at"); ("sort", "desc");
         ("per_page", pretty (perPage_of params))])%list.
Proof.
  intros Hconf Hb.
  rewrite (buildGitLabURL_object_kept prefs "/api/v4/merge_requests"
             (listParams params) url Hconf);
    [|done|by apply (bool_decide_unpack _)|done]. unfold kept_entries, listParams, effectiveState. simpl.
  destruct (decide (search_of params = "")) as [Hs|Hs]; simpl;
    destruct (decide (scope_of params = "")) as [Hc|Hc];
    destruct (decide (state_of params = "all")) as [Ha|Ha]; simpl;
    rewrite ?(bool_decide_eq_true_2 _ Hs), ?(bool_decide_eq_false_2 _ Hs),
      ?(bool_decide_eq_true_2 _ Hc), ?(bool_decide_eq_false_2 _ Hc); simpl;
    try (rewrite decide_True by tauto; done);
    destruct (decide (state_of params = "")) as [He|He];
    rewrite ?(bool_decide_eq_true_2 _ He), ?(bool_decide_eq_false_2 _ He); simpl;
    try (rewrite decide_True by tauto; done);
    rewrite decide_False by tauto; done.
Qed.

Lemma listURL_query_witness :
  ∃ url,
    listURL (platform := URLRef) example_prefs params_assigned = Return url
    ∧ url_list url
      = [("search", "fix"); ("in", "title"); ("scope", "assigned_to_me");
         ("state", "opened"); ("order_by", "updated_at"); ("sort", "desc");
         ("per_page", "20")].
Proof.
  eexists. split; [reflexivity|].
  by rewrite (listURL_query (platform := URLRef) example_prefs params_assigned _
                URLRef_conforms eq_refl).
Defined.

(** *** What the query text is made of *)

Lemma all_chars_app (f : ascii → bool) (a b : string) :
  all_chars f (a +:+ b) = all_chars f a && all_chars f b.
Proof.
  induction a as [|c a IH]; [done|]. rewrite append_cons. simpl.
  by rewrite IH, andb_assoc.
Qed.

Lemma count_char_app (c : ascii) (a b : string) :
  count_char c (a +:+ b) = (count_char c a + count_char c b)%nat.
Proof.
  induction a as [|d a IH]; [done|]. rewrite append_cons. simpl. rewrite IH. lia.
Qed.

Lemma all_chars_count (f : ascii → bool) (c : ascii) (s : string) :
  all_chars f s = true → f c = false → count_char c s = 0%nat.
Proof.
  intros Hs Hc. induction s as [|d s IH]; [done|]. simpl in *.
  apply andb_true_iff in Hs as [Hd Hs]. rewrite (IH Hs).
  destruct (decide (d = c)) as [->|]; [congruence|done].
Qed.

Lemma all_chars_impl (f g : ascii → bool) (s : string) :
  (∀ c, f c = true → g c = true) → all_chars f s = true → all_chars g s = true.
Proof.
  intros Hfg. induction s as [|c s IH]; [done|]. simpl.
  rewrite !andb_true_iff. intros [Hc Hs]. auto.
Qed.

Lemma hex_digit_alnum (n : N) : is_alnum (hex_digit n) = true.
Proof.
  destruct n as [|p]; [done|].
  do 4 (destruct p as [p|p|]; try done).
Qed.

Lemma urlencoded_encode_chars (s : string) :
  all_chars encoded_char (urlencoded_encode s) = true.
Proof.
  induction s as [|c s IH]; [done|]. simpl. rewrite all_chars_app, IH, andb_true_r.
  destruct (bool_decide (c = " "%char)); [done|].
  destruct (urlencoded_safe c) eqn:Hc.
  - simpl. unfold encoded_char. by rewrite Hc.
  - unfold percent_encode_byte, encoded_char, urlencoded_safe. simpl.
    by rewrite !hex_digit_alnum.
Qed.

(** The text of one tuple. *)
Lemma tuple_text_counts (p : string * string) :
  count_char "&" (urlencoded_encode p.1 +:+ "=" +:+ urlencoded_encode p.2) = 0%nat
  ∧ count_char "=" (urlencoded_encode p.1 +:+ "=" +:+ urlencoded_encode p.2) = 1%nat
  ∧ all_chars (λ c, encoded_char c || bool_decide (c ∈ ["&"; "="]%char))
      (urlencoded_encode p.1 +:+ "=" +:+ urlencoded_encode p.2) = true.
Proof.
  rewrite !count_char_app, !all_chars_app.
  rewrite !(all_chars_count encoded_char _ _ (urlencoded_encode_chars _)) by done.
  split; [done|]. split; [done|].
  rewrite !(all_chars_impl encoded_char _ _ (λ c Hc, orb_true_intro _ _ (or_introl Hc))
              (urlencoded_encode_chars _)).
  done.
Qed.

Lemma urlencoded_serialize_counts (l : list (string * string)) :
  count_char "&" (urlencoded_serialize l) = pred (length l)
  ∧ count_char "=" (urlencoded_serialize l) = length l
  ∧ all_chars (λ c, encoded_char c || bool_decide (c ∈ ["&"; "="]%char))
      (urlencoded_serialize l) = true.
Proof.
  unfold urlencoded_serialize. induction l as [|p l IH]; [done|].
  destruct (tuple_text_counts p) as (Ha & He & Hc).
  destruct l as [|q l]; [done|].
  destruct IH as (IHa & IHe & IHc).
  set (t := urlencoded_encode p.1 +:+ "=" +:+ urlencoded_encode p.2) in *.
  set (rest := String.concat "&"
                 (map (λ p, urlencoded_encode p.1 +:+ "=" +:+ urlencoded_encode p.2)
                    (q :: l))) in *.
  change (String.concat "&" _) with (t +:+ "&" +:+ rest).
  rewrite !count_char_app, !all_chars_app, Ha, He, Hc, IHa, IHe, IHc.
  simpl. split; [lia|]. split; [lia|done].
Qed.

(** X6. Names and values are escaped: whatever the search text and the other
    values are, the query text of the built URL has one [=] for each
    parameter that is sent and one [&] between two of them, and it holds only
    letters, digits, [*], [-], [.], [_], [+], [%], [&] and [=]. *)
Theorem buildGitLabURL_query_escaped {platform : URLPlatform}
    (prefs : Prefs) (path : string) (entries : SearchParams) (url : URL)
    (q : string) :
  URL_conforms platform →
  plain_path (strip_leading_slash path) = true →
  buildGitLabURL_object prefs path (Some entries) = Return url →
  url_query url = Some q →
  count_char "=" q = length (url_list url)
  ∧ count_char "&" q = pred (length (url_list url))
  ∧ all_chars (λ c, encoded_char c || bool_decide (c ∈ ["&"; "="]%char)) q = true.
Proof.
  intros Hconf Hplain Hb Hq.
  pose proof (buildGitLabURL_object_synced _ _ _ _ Hconf Hplain Hb) as Hs.
  unfold query_synced in Hs. rewrite Hq in Hs.
  destruct (decide (url_list url = [])); [done|]. injection Hs as ->.
  destruct (urlencoded_serialize_counts (url_list url)) as (Ha & He & Hc).
  done.
Qed.

Lemma buildGitLabURL_query_escaped_witness :
  ∃ url q,
    buildGitLabURL_object (platform := URLRef) example_prefs
      "/api/v4/merge_requests"
      (Some [("search", VString "a&state=merged #1"); ("per_page", VNumber 20)])
    = Return url
    ∧ url_query url = Some q
    ∧ q = "search=a%26state%3Dmerged+%231&per_page=20"
    ∧ count_char "=" q = 2%nat ∧ count_char "&" q = 1%nat.
Proof.
  eexists _, _. split; [reflexivity|]. split; [reflexivity|]. split; [reflexivity|].
  edestruct (buildGitLabURL_query_escaped (platform := URLRef) example_prefs
               "/api/v4/merge_requests"
               [("search", VString "a&state=merged #1"); ("per_page", VNumber 20)])
    as (He & Ha & _);
    [apply URLRef_conforms|reflexivity|reflexivity|reflexivity|].
  split; [exact He|exact Ha].
Defined.

(** *** The path of the approvals of a merge request *)

Lemma pretty_N_go_digits (x : N) (s : string) :
  all_chars digit_or_dash s = true →
  all_chars digit_or_dash (pretty_N_go x s) = true.
Proof.
  revert s. induction (N.lt_wf_0 x) as [x _ IH]; intros s Hs.
  destruct (decide (x = 0)%N) as [->|Hx]; [by rewrite pretty_N_go_0|].
  rewrite pretty_N_go_step by lia. apply IH; [apply N.div_lt; lia|].
  simpl. rewrite Hs, andb_true_r. unfold pretty_N_char. by repeat case_match.
Qed.

Lemma pretty_Z_digits (n : Z) : all_chars digit_or_dash (pretty n) = true.
Proof.
  assert (Hpos : ∀ p : positive, all_chars digit_or_dash (pretty p) = true).
  { intros p. unfold pretty, pretty_positive, pretty, pretty_N.
    rewrite decide_False by done. by apply pretty_N_go_digits. }
  destruct n as [|p|p]; [done|apply Hpos|].
  change (pretty (Z.neg p)) with ("-" +:+ pretty p). simpl. apply Hpos.
Qed.

Lemma append_inv_head (a x y : string) : a +:+ x = a +:+ y → x = y.
Proof.
  induction a as [|c a IH]; [done|]. rewrite !append_cons. intros [= H]. auto.
Qed.

(** Two texts that stop at the same separator are equal up to it. *)
Lemma separator_split (f : ascii → bool) (d : ascii) (a b ra rb : string) :
  f d = false →
  all_chars f a = true → all_chars f b = true →
  a +:+ String d ra = b +:+ String d rb → a = b ∧ ra = rb.
Proof.
  intros Hd. revert b. induction a as [|c a IH]; intros [|e b] Ha Hb;
    rewrite ?append_cons; change ("" +:+ ?s) with s.
  - by intros [= ->].
  - intros [= <- _]. simpl in Hb. by rewrite Hd in Hb.
  - intros [= -> _]. simpl in Ha. by rewrite Hd in Ha.
  - intros [= -> Heq]. simpl in Ha, Hb.
    apply andb_true_iff in Ha as [_ Ha]. apply andb_true_iff in Hb as [_ Hb].
    by destruct (IH b Ha Hb Heq) as [-> ->].
Qed.

(** X7. Two merge requests have the same approvals path exactly when they
    have the same project and the same number in it; and the path, once its
    leading slash is removed, is a plain relative path. *)
Theorem approvalsPath_inj (mr1 mr2 : MergeRequest) :
  (approvalsPath mr1 = approvalsPath mr2
   ↔ mr_project_id mr1 = mr_project_id mr2 ∧ mr_iid mr1 = mr_iid mr2)
  ∧ plain_path (strip_leading_slash (approvalsPath mr1)) = true.
Proof.
  split.
  - split.
    + unfold approvalsPath. intros H%append_inv_head.
      apply (separator_split digit_or_dash) in H as [Hp H];
        [|done|apply pretty_Z_digits..].
      apply (append_inv_head "merge_requests/") in H.
      apply (separator_split digit_or_dash) in H as [Hi _];
        [|done|apply pretty_Z_digits..].
      split; by apply (inj pretty).
    + unfold approvalsPath. by intros [-> ->].
  - unfold approvalsPath.
    change (strip_leading_slash _)
      with ("api/v4/projects/" +:+ pretty (mr_project_id mr1)
            +:+ "/merge_requests/" +:+ pretty (mr_iid mr1) +:+ "/approvals").
    assert (Hd : ∀ n : Z, all_chars path_char (pretty n) = true).
    { intros n. apply (all_chars_impl digit_or_dash); [|apply pretty_Z_digits].
      intros c. unfold digit_or_dash, path_char, is_alnum.
      intros [Hc|Hc]%orb_true_iff.
      - by rewrite Hc, orb_true_r.
      - apply bool_decide_eq_true in Hc as ->. done. }
    change (plain_path ?s) with (all_chars path_char s).
    by rewrite !all_chars_app, !Hd.
Qed.

(** ** The approvals hook over its whole life *)

Section ApprovalsLife.
Context {platform : URLPlatform} {network : Network}.







Lemma NoDup_fmap_elem {A B} (f : A → B) (l : list A) (x y : A) :
  NoDup (f <$> l) → x ∈ l → y ∈ l → f x = f y → x = y.
Proof.
  induction l as [|a l IH]; [by intros _ ?%elem_of_nil|].
  rewrite fmap_cons, NoDup_cons. intros [Ha Hnd].
  rewrite !elem_of_cons. intros [->|Hx] [->|Hy] Hf; [done| | |by apply IH].
  - destruct Ha. rewrite Hf. by apply list_elem_of_fmap_2.
  - destruct Ha. rewrite <-Hf. by apply list_elem_of_fmap_2.
Qed.

Lemma foldl_add_entry_elem (entries : list Entry) (m : gmap Z bool) k v :
  Some (k, v) ∈ entries →
  (∀ v', Some (k, v') ∈ entries → v' = v) →
  foldl add_entry m entries !! k = Some v.
Proof.
  revert m. induction entries as [|e entries IH]; intros m Hin Hu;
    [by apply elem_of_nil in Hin|].
  simpl. destruct (decide (Some (k, v) ∈ entries)) as [Hlater|Hnot].
  - apply IH; [done|]. intros v' Hv'. apply Hu. by right.
  - apply elem_of_cons in Hin as [<-|Hin]; [|done].
    rewrite foldl_add_entry_lookup; [by apply lookup_insert_eq|].
    intros v' Hv'. assert (v' = v) as -> by (apply Hu; by right). done.
Qed.

(** X9. When a batch that was not cancelled settles, an item of it whose
    lookup came back with a 2xx status and a record gets the decision for
    this record in the map, in place of any earlier value (the identifiers of
    the batch are all different). *)
Theorem settle_records_decision (st : HookState) (b : nat) (batch : Batch)
    (mr : MergeRequest) (url : string) (json : ApprovalsJSON) :
  batches st !! b = Some batch →
  settled batch = false →
  cancelled batch = false →
  NoDup (mr_id <$> batch_subset batch) →
  mr ∈ batch_subset batch →
  buildGitLabURL (batch_prefs batch) (approvalsPath mr) None = Return url →
  fetch url (gitlabToken (batch_prefs batch)) = Response true (Some json) →
  approvedMap (settle b st) !! mr_id mr = Some (isApproved json).
Proof.
  intros Hb Hs Hc Hnd Hmr Hurl Hf.
  rewrite (settle_live _ _ _ Hb Hs Hc). unfold merge_entries, entries_map.
  apply lookup_union_Some_l.
  assert (He : lookup_entry (batch_prefs batch) mr
               = Some (mr_id mr, isApproved json)).
  { unfold lookup_entry, lookup_try. rewrite Hurl. simpl. by rewrite Hf. }
  apply foldl_add_entry_elem.
  - apply list_elem_of_fmap. by exists mr.
  - intros v' (mr' & Hv' & Hmr')%list_elem_of_fmap.
    symmetry in Hv'. pose proof (lookup_entry_key _ _ _ _ Hv') as Hid.
    assert (mr' = mr) as -> by by apply (NoDup_fmap_elem mr_id (batch_subset batch)).
    rewrite He in Hv'. by injection Hv'.
Qed.

Lemma step_keeps_keys (st : HookState) (ev : Event) (k : Z) :
  ev ≠ Unmount →
  is_Some (approvedMap st !! k) → is_Some (approvedMap (step st ev) !! k).
Proof.
  intros Hev Hk. destruct ev as [prefs mrs|b|]; [| |done]; simpl.
  - unfold render. destruct (deps_changed st prefs mrs); [|done].
    by destruct (bool_decide (gitlabToken prefs = "") || bool_decide (mrs = [])).
  - unfold settle. destruct (batches st !! b) as [batch|]; [|done].
    destruct (settled batch); [done|]. rewrite lookup_all_Return.
    destruct (cancelled batch); [done|]. simpl. unfold merge_entries.
    apply lookup_union_is_Some. by right.
Qed.

(** X10. As long as the component is not unmounted, a key of the map stays in
    the map: neither a render nor a batch removes an entry. *)
Theorem approvedMap_keys_persist (st : HookState) (evs : list Event) (k : Z) :
  Unmount ∉ evs →
  is_Some (approvedMap st !! k) →
  is_Some (approvedMap (run st evs) !! k).
Proof.
  revert st. induction evs as [|ev evs IH]; intros st Hu Hk; [done|].
  simpl. apply not_elem_of_cons in Hu as [Hev Hu].
  apply IH; [done|]. apply step_keeps_keys; [congruence|done].
Qed.

Lemma ids_key_ids (mrs1 mrs2 : list MergeRequest) :
  mr_id <$> mrs1 = mr_id <$> mrs2 → ids_key mrs1 = ids_key mrs2.
Proof.
  unfold ids_key. intros H.
  change (map (λ m, pretty (mr_id m)) ?l) with ((pretty ∘ mr_id) <$> l).
  by rewrite !list_fmap_compose, H.
Qed.

(** X11. After the effect has run for a list, a render with the same token
    and a list that has the same identifiers in the same order changes
    nothing: no cleanup, no new batch, whatever else differs in the items. *)
Theorem render_same_identifiers (st : HookState) (prefs prefs' : Prefs)
    (mrs mrs' : list MergeRequest) :
  last_deps st = Some (deps_of prefs mrs) →
  gitlabToken prefs' = gitlabToken prefs →
  mr_id <$> mrs' = mr_id <$> mrs →
  render prefs' mrs' st = st.
Proof.
  intros Hd Ht Hids. unfold render, deps_changed, deps_of in *.
  rewrite Hd, Ht, (ids_key_ids _ _ Hids).
  by rewrite bool_decide_eq_false_2 by (by intros []).
Qed.

(** X12. Without a token, or with an empty list, the effect returns at once:
    a history of which every render is such starts no batch and leaves the
    map empty. *)
Theorem idle_history (history : list Event) :
  Forall idle_event history →
  batches (run initial history) = []
  ∧ approvedMap (run initial history) = ∅
  ∧ cleanup (run initial history) = None.
Proof.
  induction history as [|ev history IH] using rev_ind; [done|].
  intros [Hh Hev]%Forall_app. apply Forall_inv in Hev.
  destruct (IH Hh) as (Hb & Hm & Hc).
  unfold run in *. rewrite foldl_app. simpl.
  set (st := foldl step initial history) in *.
  destruct ev as [prefs mrs|b|]; simpl.
  - unfold render. destruct (deps_changed st prefs mrs); [|done].
    assert (Hidle : bool_decide (gitlabToken prefs = "") || bool_decide (mrs = [])
                    = true).
    { unfold idle_event in Hev. destruct Hev as [Ht|Hl].
      - by rewrite (bool_decide_eq_true_2 _ Ht).
      - by rewrite (bool_decide_eq_true_2 (mrs = []) Hl), orb_true_r. }
    rewrite Hidle. simpl. unfold run_cleanup. by rewrite Hc.
  - unfold settle. by rewrite Hb.
  - unfold unmount, run_cleanup. simpl. by rewrite Hc.
Qed.
End ApprovalsLife.


Lemma settle_records_decision_witness :
  approvedMap (settle (platform := URLRef) (network := net_partial) 0
                 (render example_prefs [mk_mr 1; mk_mr 2] initial))
    !! mr_id (mk_mr 2) = Some (isApproved approved_json).
Proof.
  apply (settle_records_decision (platform := URLRef) (network := net_partial)
           (render example_prefs [mk_mr 1; mk_mr 2] initial) 0
           {| batch_prefs := example_prefs; batch_subset := [mk_mr 1; mk_mr 2];
              cancelled := false; settled := false |}
           (mk_mr 2)
           "https://gitlab.example.com/api/v4/projects/1/merge_requests/2/approvals");
    try reflexivity.
  - by apply (bool_decide_unpack _).
  - right. by left.
Defined.

Lemma approvedMap_keys_persist_witness :
  is_Some
    (approvedMap
       (run (platform := URLRef) (network := net_approved)
          (run (platform := URLRef) (network := net_approved) initial
             [Render example_prefs thirty; Settle 0%nat])
          [Render example_prefs (reverse thirty); Settle 1%nat])
       !! mr_id (mk_mr 1)).
Proof.
  apply (approvedMap_keys_persist (platform := URLRef) (network := net_approved)).
  - intros [H|[H|H%elem_of_nil]%elem_of_cons]%elem_of_cons; done.
  - exists true. vm_compute. reflexivity.
Defined.

Lemma render_same_identifiers_witness :
  render example_prefs
    [ {| mr_id := 101; mr_iid := 1; mr_project_id := 1;
         mr_title := "renamed"; mr_state := "merged" |} ]
    (render example_prefs [mk_mr 1] initial)
  = render example_prefs [mk_mr 1] initial.
Proof.
  apply (render_same_identifiers _ example_prefs example_prefs [mk_mr 1]);
    reflexivity.
Defined.

Lemma idle_history_witness :
  batches (run (platform := URLRef) (network := net_approved) initial
             [Render no_token_prefs thirty; Settle 0%nat;
              Render example_prefs []; Unmount]) = []
  ∧ approvedMap (run (platform := URLRef) (network := net_approved) initial
                   [Render no_token_prefs thirty; Settle 0%nat;
                    Render example_prefs []; Unmount]) = ∅
  ∧ cleanup (run (platform := URLRef) (network := net_approved) initial
               [Render no_token_prefs thirty; Settle 0%nat;
                Render example_prefs []; Unmount]) = None.
Proof.
  apply (idle_history (platform := URLRef) (network := net_approved)).
  constructor; [by left|]. constructor; [done|].
  constructor; [by right|]. constructor; [done|]. constructor.
Defined.

(** ** The rows and the component *)

Section RowFacts.
Variable toLocaleString : string → string.

Lemma pipelineStatusToIcon_Some (status icon : string) :
  pipelineStatusToIcon status = Some icon
  ↔ status ∈ ["running"; "pending"; "success"]
    ∧ icon = "gitlab-" +:+ status +:+ ".png".
Proof.
  unfold pipelineStatusToIcon. rewrite !elem_of_cons, elem_of_nil.
  destruct (decide (status = "running")) as [->|H1].
  { split; [intros [= <-]; auto|by intros [_ ->]]. }
  destruct (decide (status = "pending")) as [->|H2].
  { split; [intros [= <-]; auto|by intros [_ ->]]. }
  destruct (decide (status = "success")) as [->|H3].
  { split; [intros [= <-]; auto|by intros [_ ->]]. }
  split; [done|]. intros [[?|[?|[?|[]]]] _]; done.
Qed.

Lemma pipeline_accessory_elem (mr : MergeRequestRow) (a : Accessory) :
  a ∈ pipeline_accessory mr →
  ∃ p icon, head_pipeline mr = Some p
            ∧ pipelineStatusToIcon (pipeline_status p) = Some icon
            ∧ a = {| acc_icon := Some (IconImage icon); acc_tag := None;
                     acc_tooltip := Some ("Pipeline: " +:+ pipeline_status p);
                     acc_date := None |}.
Proof.
  unfold pipeline_accessory. destruct (head_pipeline mr) as [p|]; [|by intros ?%elem_of_nil].
  destruct (truthy _); [|by intros ?%elem_of_nil].
  destruct (pipelineStatusToIcon _) as [icon|] eqn:Hicon;
    [|by intros ?%elem_of_nil].
  intros ->%list_elem_of_singleton. by exists p, icon.
Qed.

Lemma reviewers_accessory_elem (mr : MergeRequestRow) (a : Accessory) :
  a ∈ reviewers_accessory mr → acc_tag a = Some (TagText "Reviews").
Proof.
  unfold reviewers_accessory.
  destruct (reviewers mr) as [[|first others]|]; try by intros ?%elem_of_nil.
  by intros ->%list_elem_of_singleton.
Qed.

Lemma approved_tag_elem (mr : MergeRequestRow) :
  approved_tag ∈ mergeRequestAccessories toLocaleString mr
  ↔ row_approved mr = Some true.
Proof.
  unfold mergeRequestAccessories. rewrite !elem_of_app. split.
  - intros [H|[H|[H|H]]].
    + by apply pipeline_accessory_elem in H as (p & icon & _ & _ & [=]).
    + unfold approved_accessory in H.
      destruct (row_approved mr) as [[]|]; simpl in H; try done;
        by apply elem_of_nil in H.
    + by apply reviewers_accessory_elem in H.
    + unfold state_and_date in H.
      apply elem_of_cons in H as [[=]|H].
      by apply list_elem_of_singleton in H.
  - intros H. right. left. unfold approved_accessory. rewrite H. by left.
Qed.

(** X13. The accessories of a row are those of gitlab.ts (the reviewers, the
    state and the date, which always end the row) after at most a pipeline
    icon and the APPROVED tag. The tag is there exactly when [approved] is
    true, and an icon without a tag exactly when the pipeline is running,
    pending or successful: any other status shows nothing. *)
Theorem mergeRequestAccessories_shape (mr : MergeRequestRow) :
  (∃ front,
      mergeRequestAccessories toLocaleString mr
      = (front ++ mergeRequestAccessories_gitlab_ts toLocaleString mr)%list
      ∧ (length front ≤ 2)%nat)
  ∧ (2 ≤ length (mergeRequestAccessories toLocaleString mr) ≤ 5)%nat
  ∧ (approved_tag ∈ mergeRequestAccessories toLocaleString mr
     ↔ row_approved mr = Some true)
  ∧ ((∃ a, a ∈ mergeRequestAccessories toLocaleString mr
           ∧ is_Some (acc_icon a) ∧ acc_tag a = None)
     ↔ ∃ p, head_pipeline mr = Some p
            ∧ pipeline_status p ∈ ["running"; "pending"; "success"]).
Proof.
  assert (Hp : (length (pipeline_accessory mr) ≤ 1)%nat).
  { unfold pipeline_accessory. destruct (head_pipeline mr); [|simpl; lia].
    destruct (truthy _); [|simpl; lia].
    destruct (pipelineStatusToIcon _); simpl; lia. }
  assert (Ha : (length (approved_accessory mr) ≤ 1)%nat).
  { unfold approved_accessory. destruct (is_true _); simpl; lia. }
  assert (Hr : (length (reviewers_accessory mr) ≤ 1)%nat).
  { unfold reviewers_accessory.
    destruct (reviewers mr) as [[|? ?]|]; simpl; lia. }
  split; [|split; [|split; [apply approved_tag_elem|]]];
    unfold mergeRequestAccessories, mergeRequestAccessories_gitlab_ts.
  - exists (pipeline_accessory mr ++ approved_accessory mr)%list.
    rewrite <-app_assoc, length_app. split; [done|lia].
  - rewrite !length_app. simpl. lia.
  - split.
    + intros (a & Hin & Hicon & Htag).
      rewrite !elem_of_app in Hin. destruct Hin as [H|[H|[H|H]]].
      * apply pipeline_accessory_elem in H as (p & icon & Hhp & Hi & _).
        exists p. split; [done|]. by apply pipelineStatusToIcon_Some in Hi as [? _].
      * unfold approved_accessory in H. destruct (is_true _);
          [apply list_elem_of_singleton in H as ->; by destruct Hicon
          |by apply elem_of_nil in H].
      * apply reviewers_accessory_elem in H. congruence.
      * unfold state_and_date in H. apply elem_of_cons in H as [->|H];
          [done|]. apply list_elem_of_singleton in H as ->. by destruct Hicon.
    + intros (p & Hhp & Hs).
      assert (Hicon : pipelineStatusToIcon (pipeline_status p)
                      = Some ("gitlab-" +:+ pipeline_status p +:+ ".png"))
        by by apply pipelineStatusToIcon_Some.
      assert (Ht : truthy (Some (pipeline_status p)) = true).
      { rewrite !elem_of_cons, elem_of_nil in Hs.
        destruct Hs as [->|[->|[->|[]]]]; done. }
      eexists. split.
      * rewrite elem_of_app. left. unfold pipeline_accessory.
        rewrite Hhp, Ht, Hicon. by left.
      * split; [by eexists|done].
Qed.

End RowFacts.

(** X15. The icon of a row: a merge request with a merge date is shown as
    merged whatever its state is, also when the state is [closed]; the closed
    icon needs the state [closed] and no merge date; every other state,
    known or not, gives the open icon. *)
Theorem stateIcon_cases (mr : MergeRequestRow) :
  (stateIcon mr = "pr-merged.png"
   ↔ truthy (merged_at mr) = true ∨ mr_state (row_mr mr) = "merged")
  ∧ (stateIcon mr = "pr-closed.png"
     ↔ truthy (merged_at mr) = false ∧ mr_state (row_mr mr) = "closed")
  ∧ (stateIcon mr = "pr-open.png"
     ↔ truthy (merged_at mr) = false ∧ mr_state (row_mr mr) ≠ "merged"
       ∧ mr_state (row_mr mr) ≠ "closed").
Proof.
  unfold stateIcon. destruct (truthy (merged_at mr)); simpl.
  { repeat split; try done; try tauto; by intros [? _]. }
  destruct (bool_decide (mr_state (row_mr mr) = "merged")) eqn:Hm.
  { apply bool_decide_eq_true in Hm. rewrite Hm.
    repeat split; try done; try tauto; try (by intros [_ ?]);
      by intros (_ & ? & _). }
  apply bool_decide_eq_false in Hm.
  destruct (decide (mr_state (row_mr mr) = "closed")) as [Hc|Hc];
    repeat split; try done; try tauto; try (by intros [?|?]);
    try (by intros [_ ?]); by intros (_ & _ & ?).
Qed.

Lemma scopeActions_elem (scope : string) (a : ScopeAction) :
  a ∈ scopeActions scope →
  action_target a ∈ ["assigned_to_me"; "created_by_me"; "reviews_for_me"; "all"]
  ∧ action_current a
    = bool_decide (scope = if decide (action_target a = "reviews_for_me")
                           then "reviewer" else action_target a).
Proof.
  unfold scopeActions. rewrite !elem_of_cons, elem_of_nil.
  intros [->|[->|[->|[->|[]]]]]; simpl;
    (split; [auto 10|reflexivity]).
Qed.

(** X16. The marks of the scope actions. After an action has been chosen,
    the panel marks as current the action that was chosen and no other one,
    except for [Scope: Reviewer]: it sets the scope [reviews_for_me], which no
    title is tested against, and then no action is marked. *)
Theorem scopeActions_current (ui : SearchState) (chosen a : ScopeAction) :
  chosen ∈ scopeActions (ui_scope ui) →
  a ∈ scopeActions (ui_scope (changeScope (action_target chosen) ui)) →
  (action_current a = true
   ↔ action_target a = action_target chosen
     ∧ action_target chosen ≠ "reviews_for_me")
  ∧ (action_title a
     = action_label a
       +:+ (if decide (action_target a = action_target chosen
                       ∧ action_target chosen ≠ "reviews_for_me")
            then " (Current)" else "")).
Proof.
  intros [Hct _]%scopeActions_elem [Hat Hcur]%scopeActions_elem. simpl in Hcur.
  assert (Hiff : action_current a = true
                 ↔ action_target a = action_target chosen
                   ∧ action_target chosen ≠ "reviews_for_me").
  { rewrite Hcur, bool_decide_eq_true.
    rewrite !elem_of_cons, elem_of_nil in Hct, Hat.
    destruct Hct as [->|[->|[->|[->|[]]]]];
      destruct Hat as [->|[->|[->|[->|[]]]]]; simpl; split;
      try done; try tauto; by intros [? ?]. }
  split; [done|]. unfold action_title.
  destruct (action_current a) eqn:E.
  - by rewrite decide_True by by apply Hiff.
  - rewrite decide_False; [done|]. intros H%Hiff. congruence.
Qed.

Lemma scopeActions_current_witness :
  (action_current
     {| action_label := "Scope: Reviewer"; action_current := false;
        action_target := "reviews_for_me" |} = true
   ↔ "reviews_for_me" = "reviews_for_me" ∧ "reviews_for_me" ≠ "reviews_for_me")
  ∧ action_title
      {| action_label := "Scope: Reviewer"; action_current := false;
         action_target := "reviews_for_me" |}
    = "Scope: Reviewer".
Proof.
  apply (scopeActions_current
           {| ui_search := ""; ui_scope := "created_by_me"; ui_state := "opened" |}
           {| action_label := "Scope: Reviewer"; action_current := false;
              action_target := "reviews_for_me" |}
           {| action_label := "Scope: Reviewer"; action_current := false;
              action_target := "reviews_for_me" |}).
  - unfold scopeActions. simpl. rewrite !elem_of_cons. auto.
  - unfold scopeActions. simpl. rewrite !elem_of_cons. auto.
Defined.

(** X17. The component and the list hook test the same thing: the empty view
    [Type to search across all merge requests] is rendered exactly when the
    list request is held back, for the search text, the scope and the state
    that the component passes. *)
Theorem emptyView_deferred {platform : URLPlatform}
    (prefs : Prefs) (ui : SearchState) (call : UseFetchCall) :
  useMergeRequests prefs (ui_params ui) = Return (UseFetch call) →
  (emptyView ui = true ↔ execute call = false)
  ∧ (emptyView ui = true
     ↔ dispatches (useMergeRequests prefs (ui_params ui)) = false).
Proof.
  intros Hcall. pose proof (useMergeRequests_execute _ _ _ Hcall) as Hex.
  assert (He : emptyView ui = shouldDefer (ui_params ui)) by done.
  rewrite Hcall. simpl. rewrite Hex, He.
  by destruct (shouldDefer (ui_params ui)).
Qed.

Lemma emptyView_deferred_witness :
  (emptyView {| ui_search := ""; ui_scope := "all"; ui_state := "opened" |} = true
   ↔ false = false)
  ∧ (emptyView {| ui_search := ""; ui_scope := "all"; ui_state := "opened" |} = true
     ↔ dispatches
         (useMergeRequests (platform := URLRef) example_prefs
            (ui_params {| ui_search := ""; ui_scope := "all";
                          ui_state := "opened" |})) = false).
Proof.
  apply (emptyView_deferred (platform := URLRef) example_prefs
           {| ui_search := ""; ui_scope := "all"; ui_state := "opened" |}
           {| fetch_url := "https://gitlab.example.com/api/v4/merge_requests?scope=all&state=opened&order_by=updated_at&sort=desc&per_page=20";
              keepPreviousData := true; execute := false;
              fetch_headers := [("PRIVATE-TOKEN", "glpat-1")] |}).
  reflexivity.
Defined.
